(** * demo/csrc/cpp/text_ocr.cxx: the text OCR demo

    A shallow embedding of [main] of the OCR demo and the properties of its
    runs.  The program is glue code around two foreign libraries, the
    inference SDK and the vision library, and the C library's [fprintf].

    - Every foreign call is recorded, with its arguments and its result, in
      a log of events; the result is the answer of an arbitrary environment
      ([Externals]) in the current state of the outside world, so a theorem
      holds whatever the SDK and the vision library answer, and however a
      call changes the world.
    - Foreign calls are taken to return; [main] catches no exception, and a
      run in which a foreign call does not return is not a run of this
      model.
    - [texts[i]] is an unchecked access: outside the results of the
      recognizer the run ends in [Fault], from where the language defines
      nothing.
    - Coordinates are IEEE 754 values ([spec_float]); [(int)] and [%.2f] are
      given by [float_to_int] and [fmt_2f]. *)

From Stdlib Require Import ZArith List String Ascii Bool Lia.
From Stdlib Require Import QArith Qround Qpower.
From Stdlib Require Import Floats.SpecFloat.
From Stdlib Require Import DecimalString.
Import ListNotations.

Local Open Scope string_scope.
Local Open Scope Z_scope.

(** ** Data of the foreign interfaces *)

(** The line feed of the C string literals. *)
Definition nl : string := String (ascii_of_nat 10) EmptyString.

(** [FILE*] streams used by the program. *)
Inductive Stream := stdout | stderr.

(** A C [float]: the IEEE 754 values of the standard library's
    specification ([S754_zero], [S754_infinity], [S754_nan], and
    [S754_finite s m e] of value [(-1)^s * m * 2^e]). *)
Definition float := spec_float.

(** [mmdeploy_point_t]. *)
Record mmdeploy_point_t := { x : float; y : float }.

(** [mmdeploy_text_detection_t]: the vertices of the box and a score. *)
Record TextDetection := { bbox : list mmdeploy_point_t; score : float }.

(** [mmdeploy_text_recognition_t]. *)
Record TextRecognition := { text : string; text_score : list float; text_length : Z }.

(** [cv::Point], a pair of [int]. *)
Record Point := { px : Z; py : Z }.

(** [cv::Scalar]. *)
Definition Scalar := list Z.

(** [Span<T>{ptr, size}]: a start pointer, seen as the storage that begins
    there, and a count. *)
Record Span (A : Type) := mkSpan { span_ptr : list A; span_size : nat }.
Arguments mkSpan {A} _ _.
Arguments span_ptr {A} _.
Arguments span_size {A} _.

(** The elements a span denotes: the first [span_size] ones from its pointer. *)
Definition span_elems {A} (s : Span A) : list A := firstn (span_size s) (span_ptr s).

(** [v.begin()] and [v.size()] of a result vector. *)
Definition begin {A} (v : list A) : list A := v.
Definition size {A} (v : list A) : nat := List.length v.

(** The SDK's configuration objects, as the data they are built from. *)
Record Device := { device_name : string; device_id : Z }.
Record Profiler := { profiler_path : string }.
Record Context := { ctx_device : Device; ctx_added : list Profiler }.
Record Model := { model_path : string }.
Record TextDetector := { det_model : Model; det_context : Context }.
Record TextRecognizer := { reg_model : Model; reg_context : Context }.

Inductive SdkObject :=
| ODevice (d : Device)
| OContext (c : Context)
| OProfiler (p : Profiler)
| OModel (m : Model)
| OTextDetector (d : TextDetector)
| OTextRecognizer (r : TextRecognizer).

(** Variadic arguments of [fprintf]; a [float] is passed as a [double] of the
    same value. *)
Inductive PrintfArg :=
| AInt (z : Z)
| AStr (s : string)
| ADouble (f : float).

(** ** Conversions of the C language and library *)

Definition INT_MIN : Z := - 2 ^ 31.
Definition INT_MAX : Z := 2 ^ 31 - 1.

(** The integer part of a finite float, with the sign of the float:
    [m * 2^e] shifted left for [e >= 0], right (dropping the fraction bits)
    for [e < 0]. *)
Definition float_integer_part (f : float) : option Z :=
  match f with
  | S754_zero _ => Some 0
  | S754_finite s m e =>
      let mag := Z.shiftl (Zpos m) e in
      Some (if s then - mag else mag)
  | S754_infinity _ | S754_nan => None
  end.

(** [(int)f]: the fraction is discarded; where the integer part does not fit
    [int] (or there is none: infinities, NaN) the language leaves the result
    open, and [undef] is what the platform leaves there. *)
Definition float_to_int (undef : float -> Z) (f : float) : Z :=
  match float_integer_part f with
  | Some t => if (INT_MIN <=? t) && (t <=? INT_MAX) then t else undef f
  | None => undef f
  end.

(** Decimal text of an integer ([%d]). *)
Definition dec (z : Z) : string := NilZero.string_of_int (Z.to_int z).

(** The count of hundredths nearest to [m * 2^e], ties to even. *)
Definition hundredths (m : positive) (e : Z) : Z :=
  let n := Zpos m * 100 in
  if 0 <=? e then n * 2 ^ e
  else
    let d := 2 ^ (- e) in
    let q := n / d in
    let r := n mod d in
    if 2 * r <? d then q
    else if d <? 2 * r then q + 1
    else if Z.even q then q else q + 1.

Definition digit (z : Z) : ascii := ascii_of_nat (48 + Z.to_nat z).

Definition sign_text (s : bool) : string := if s then "-" else EmptyString.

(** Text of [h] hundredths with two decimals. *)
Definition fixed2 (s : bool) (h : Z) : string :=
  sign_text s ++ dec (h / 100) ++ "." ++
  String (digit (h / 10 mod 10)) (String (digit (h mod 10)) EmptyString).

(** [%.2f] of a double. *)
Definition fmt_2f (f : float) : string :=
  match f with
  | S754_zero s => fixed2 s 0
  | S754_finite s m e => fixed2 s (hundredths m e)
  | S754_infinity s => sign_text s ++ "inf"
  | S754_nan => "nan"
  end.

(** The texts of a list, one after the other. *)
Definition text_of (l : list string) : string := fold_right String.append EmptyString l.

Definition arg_d (a : option PrintfArg) : string :=
  match a with Some (AInt z) => dec z | _ => EmptyString end.
Definition arg_s (a : option PrintfArg) : string :=
  match a with Some (AStr s) => s | _ => EmptyString end.
Definition arg_2f (a : option PrintfArg) : string :=
  match a with Some (ADouble f) => fmt_2f f | _ => EmptyString end.

(** The text [fprintf] writes for a format and its arguments, for the
    conversions the program uses: [%d], [%s] and [%.2f]. *)
Fixpoint format (fmt : string) (args : list PrintfArg) {struct fmt} : string :=
  match fmt with
  | EmptyString => EmptyString
  | String c rest =>
      if Ascii.eqb c "%" then
        match rest with
        | String k rest1 =>
            if Ascii.eqb k "d" then arg_d (hd_error args) ++ format rest1 (tl args)
            else if Ascii.eqb k "s" then arg_s (hd_error args) ++ format rest1 (tl args)
            else
              match rest1 with
              | String k2 (String k3 rest3) =>
                  if Ascii.eqb k "." && Ascii.eqb k2 "2" && Ascii.eqb k3 "f"
                  then arg_2f (hd_error args) ++ format rest3 (tl args)
                  else String c (format rest args)
              | _ => String c (format rest args)
              end
        | EmptyString => String c EmptyString
        end
      else String c (format rest args)
  end.

(** ** The conversions in the words of arithmetic *)

Definition is_finite (f : float) : bool :=
  match f with S754_zero _ | S754_finite _ _ _ => true | _ => false end.

(** The rational a finite float stands for. *)
Definition float_value (f : float) : Q :=
  match f with
  | S754_finite s m e =>
      ((if s then - (1) else 1) * (inject_Z (Zpos m) * (2 # 1) ^ e))%Q
  | _ => 0%Q
  end.

(** Truncation toward zero: the floor of a non-negative number, the ceiling
    of a negative one. *)
Definition truncate_toward_zero (q : Q) : Z :=
  if Qle_bool 0 q then Qfloor q else Qceiling q.

(** Rounding to the nearest integer (halves upward). *)
Definition round_to_nearest (q : Q) : Z := Qfloor (q + (1 # 2))%Q.

Definition is_digit (c : ascii) : bool :=
  ((48 <=? nat_of_ascii c) && (nat_of_ascii c <=? 57))%nat.

(** No decimal point in a text. *)
Fixpoint no_point (s : string) : bool :=
  match s with
  | EmptyString => true
  | String c rest => negb (Ascii.eqb c ".") && no_point rest
  end.

(** A text with two decimal places: an integer part without a point, a point,
    and exactly two digits. *)
Definition two_decimals (s : string) : Prop :=
  exists (ip : string) (d1 d2 : ascii),
    s = ip ++ "." ++ String d1 (String d2 EmptyString)
    /\ no_point ip = true /\ is_digit d1 = true /\ is_digit d2 = true.

(** ** The environment and the log of foreign calls *)

(** What lies outside the program: the image type of the vision library, the
    state of the outside world, and the answers of the foreign calls. *)
Class Externals := {
  Mat : Type;
  World : Type;
  (** [img.data] is not null. *)
  mat_data : Mat -> bool;
  (** The image [cv::imread] decodes from a path. *)
  cv_imread : string -> World -> Mat;
  (** The image after [cv::polylines] drew on it. *)
  cv_polylines : Mat -> list Point -> bool -> Scalar -> Mat;
  (** The boxes [TextDetector::Apply] returns. *)
  detector_result : TextDetector -> Mat -> World -> list TextDetection;
  (** The texts [TextRecognizer::Apply] returns. *)
  recognizer_result :
    TextRecognizer -> Mat -> Span TextDetection -> World -> list TextRecognition;
  (** What a float-to-int conversion leaves outside the range of [int]. *)
  int_conv_undef : float -> Z
}.

(** A foreign call, with its arguments and (where it has one) its result. *)
Inductive Event {Ext : Externals} :=
| EFprintf (st : Stream) (fmt : string) (args : list PrintfArg)
| EImread (path : string) (img : Mat)
| EConstruct (o : SdkObject)
| EContextAdd (c : Context) (p : Profiler)
| EDetectorApply (d : TextDetector) (img : Mat) (res : list TextDetection)
| ERecognizerApply (r : TextRecognizer) (img : Mat)
    (bboxes : Span TextDetection) (res : list TextRecognition)
| EPolylines (img : Mat) (pts : list Point) (closed : bool) (color : Scalar)
| EImwrite (path : string) (img : Mat).

(** ** Sample environments *)

Module Sample.

(** An image is the list of polygons drawn on it; [None] is the empty [Mat]
    of a failed decode. *)
Definition image := option (list (list Point)).

Definition f_10_5 : float := S754_finite false 21 (-1).
Definition f_20_25 : float := S754_finite false 81 (-2).
Definition f_110_75 : float := S754_finite false 443 (-2).
Definition f_60 : float := S754_finite false 15 2.
Definition f_neg_2_75 : float := S754_finite true 11 (-2).
Definition f_2_75 : float := S754_finite false 11 (-2).
Definition f_0_125 : float := S754_finite false 1 (-3).

Definition box_a : TextDetection :=
  {| bbox := [ {| x := f_10_5; y := f_20_25 |}; {| x := f_110_75; y := f_20_25 |};
               {| x := f_110_75; y := f_60 |}; {| x := f_10_5; y := f_60 |} ];
     score := f_0_125 |}.

Definition box_b : TextDetection :=
  {| bbox := [ {| x := f_neg_2_75; y := f_2_75 |}; {| x := f_60; y := f_2_75 |};
               {| x := f_60; y := f_60 |}; {| x := f_neg_2_75; y := f_60 |} ];
     score := f_0_125 |}.

Definition word (s : string) : TextRecognition :=
  {| text := s; text_score := []; text_length := Z.of_nat (String.length s) |}.

(** The world counts the foreign calls that acted on it.  The detector finds
    one box during the first rounds and two from the 41st inference call on;
    the recognizer reads one word per box. *)
Definition env : Externals :=
  {| Mat := image;
     World := nat;
     mat_data := fun m => match m with Some _ => true | None => false end;
     cv_imread := fun path _ => if String.eqb path "missing.png" then None else Some [];
     cv_polylines := fun m pts _ _ => option_map (fun l => l ++ [pts])%list m;
     detector_result := fun _ _ w => if (w <? 48)%nat then [box_a] else [box_a; box_b];
     recognizer_result := fun _ _ sp _ => map (fun _ => word "text") (span_elems sp);
     int_conv_undef := fun _ => INT_MIN |}.

(** The decoded image before any drawing, and the empty one. *)
Definition blank : @Mat env := Some [].
Definition no_image : @Mat env := None.

(** The same, with a recognizer that reads the first box only. *)
Definition env_short : Externals :=
  {| Mat := image;
     World := nat;
     mat_data := fun m => match m with Some _ => true | None => false end;
     cv_imread := fun path _ => if String.eqb path "missing.png" then None else Some [];
     cv_polylines := fun m pts _ _ => option_map (fun l => l ++ [pts])%list m;
     detector_result := fun _ _ w => if (w <? 48)%nat then [box_a] else [box_a; box_b];
     recognizer_result := fun _ _ sp _ => map (fun _ => word "text") (firstn 1 (span_elems sp));
     int_conv_undef := fun _ => INT_MIN |}.

(** The world no call has acted on yet. *)
Definition start : @World env := 0%nat.
Definition start_short : @World env_short := 0%nat.

(** Every call that acts on the world is counted. *)
Definition tick {E : Externals} (e : @Event E) (w : nat) : nat := S w.

Definition argv_ok : list string :=
  ["ocr"; "cpu"; "det_model"; "reg_model"; "demo.png"].
Definition argv_missing : list string :=
  ["ocr"; "cpu"; "det_model"; "reg_model"; "missing.png"].
Definition argv_few : list string := ["ocr"; "cpu"].

End Sample.

(** ** A sample environment for the empty detection *)

Module SampleEdge.

Import Sample.

(** The detector finds one box during the first rounds and none from the
    41st inference call on; given no box, the recognizer reads the whole
    image as one word. *)
Definition env_none : Externals :=
  {| Mat := image;
     World := nat;
     mat_data := fun m => match m with Some _ => true | None => false end;
     cv_imread := fun path _ => if String.eqb path "missing.png" then None else Some [];
     cv_polylines := fun m pts _ _ => option_map (fun l => l ++ [pts])%list m;
     detector_result := fun _ _ w => if (w <? 48)%nat then [box_a] else [];
     recognizer_result :=
       fun _ _ sp _ =>
         match span_elems sp with
         | [] => [word "page"]
         | l => map (fun _ => word "text") l
         end;
     int_conv_undef := fun _ => INT_MIN |}.

Definition start_none : @World env_none := 0%nat.
Definition blank_none : @Mat env_none := Some [].

End SampleEdge.

(** ** The program *)

Section Program.

Context {Ext : Externals}.

(** How a foreign call changes the outside world. *)
Variable world_step : Event -> World -> World.

Record State := mkState { world : World; log : list Event }.

(** A computation ends with a value, or at an access outside an array (from
    where the language defines nothing). *)
Inductive Outcome (A : Type) :=
| Done (a : A) (s : State)
| Fault (s : State).
Arguments Done {A} _ _.
Arguments Fault {A} _.

Definition M (A : Type) := State -> Outcome A.

Definition ret {A} (a : A) : M A := fun s => Done a s.

Definition bind {A B} (m : M A) (k : A -> M B) : M B :=
  fun s => match m s with
           | Done a s' => k a s'
           | Fault s' => Fault s'
           end.

Definition fault {A} : M A := fun s => Fault s.

Notation "x <- m ;; k" := (bind m (fun x => k))
  (at level 61, m at next level, right associativity).
Notation "m ;; k" := (bind m (fun _ => k))
  (at level 61, right associativity).

(** [cv::imread] decodes a file and changes nothing outside the program;
    every other foreign call may act on the world. *)
Definition reads_only (e : Event) : bool :=
  match e with EImread _ _ => true | _ => false end.

Definition advance (e : Event) (w : World) : World :=
  if reads_only e then w else world_step e w.

(** A foreign call happens: the log grows and the world moves on. *)
Definition emit (e : Event) : M unit :=
  fun s => Done tt {| world := advance e (world s); log := (log s ++ [e])%list |}.

(** The answer the world gives to a foreign call. *)
Definition ask {A} (f : World -> A) : M A := fun s => Done (f (world s)) s.

(** [v[i]], unchecked. *)
Definition index {A} (v : list A) (i : nat) : M A :=
  match nth_error v i with
  | Some a => ret a
  | None => fault
  end.

(** [for (int i = lo; i < lo + n; ++i) body], threading the locals the body
    updates. *)
Fixpoint for_loop {Loc} (n : nat) (i : nat) (body : nat -> Loc -> M Loc) (acc : Loc)
  : M Loc :=
  match n with
  | O => ret acc
  | S n' => acc' <- body i acc ;; for_loop n' (S i) body acc'
  end.

(** [for (const auto& a : l) body]. *)
Fixpoint for_each {A Loc} (l : list A) (body : A -> Loc -> M Loc) (acc : Loc) : M Loc :=
  match l with
  | [] => ret acc
  | a :: l' => acc' <- body a acc ;; for_each l' body acc'
  end.

(** *** The foreign calls *)

Definition fprintf (st : Stream) (fmt : string) (args : list PrintfArg) : M unit :=
  emit (EFprintf st fmt args).

Definition imread (path : string) : M Mat :=
  img <- ask (cv_imread path) ;;
  emit (EImread path img) ;;
  ret img.

Definition new_Device (name : string) (id : Z) : M Device :=
  let d := {| device_name := name; device_id := id |} in
  emit (EConstruct (ODevice d)) ;; ret d.

Definition new_Context (d : Device) : M Context :=
  let c := {| ctx_device := d; ctx_added := [] |} in
  emit (EConstruct (OContext c)) ;; ret c.

Definition new_Profiler (path : string) : M Profiler :=
  let p := {| profiler_path := path |} in
  emit (EConstruct (OProfiler p)) ;; ret p.

Definition Context_Add (c : Context) (p : Profiler) : M Context :=
  emit (EContextAdd c p) ;;
  ret {| ctx_device := ctx_device c; ctx_added := (ctx_added c ++ [p])%list |}.

Definition new_Model (path : string) : M Model :=
  let m := {| model_path := path |} in
  emit (EConstruct (OModel m)) ;; ret m.

Definition new_TextDetector (m : Model) (c : Context) : M TextDetector :=
  let d := {| det_model := m; det_context := c |} in
  emit (EConstruct (OTextDetector d)) ;; ret d.

Definition new_TextRecognizer (m : Model) (c : Context) : M TextRecognizer :=
  let r := {| reg_model := m; reg_context := c |} in
  emit (EConstruct (OTextRecognizer r)) ;; ret r.

Definition detector_Apply (d : TextDetector) (img : Mat) : M (list TextDetection) :=
  res <- ask (detector_result d img) ;;
  emit (EDetectorApply d img res) ;;
  ret res.

Definition recognizer_Apply (r : TextRecognizer) (img : Mat)
    (bboxes : Span TextDetection) : M (list TextRecognition) :=
  res <- ask (recognizer_result r img bboxes) ;;
  emit (ERecognizerApply r img bboxes res) ;;
  ret res.

Definition polylines (img : Mat) (pts : list Point) (closed : bool) (color : Scalar)
  : M Mat :=
  emit (EPolylines img pts closed color) ;;
  ret (cv_polylines img pts closed color).

Definition imwrite (path : string) (img : Mat) : M unit :=
  emit (EImwrite path img).

(** *** The body of [main] *)

Definition usage : string :=
  "usage:" ++ nl ++
  "  ocr device_name det_model_path reg_model_path image_path" ++ nl.

Definition load_failed_fmt : string := "failed to load image: %s" ++ nl.
Definition box_fmt : string := "box[%d]: %s" ++ nl.
Definition vertex_fmt : string := "x: %.2f, y: %.2f, ".

Definition green : Scalar := [0; 255; 0].

(** [(int)pt.x], [(int)pt.y]. *)
Definition to_int (f : float) : Z := float_to_int int_conv_undef f.

(** One detection followed by one recognition (lines 34-35 and 38-39). *)
Definition infer (detector : TextDetector) (recognizer : TextRecognizer) (img : Mat)
  : M (list TextDetection * list TextRecognition) :=
  bboxes <- detector_Apply detector img ;;
  texts <- recognizer_Apply recognizer img (mkSpan (begin bboxes) (size bboxes)) ;;
  ret (bboxes, texts).

(** The body of the loop over the vertices of a box (lines 45-46). *)
Definition vertex_body (pt : mmdeploy_point_t) (poly_points : list Point)
  : M (list Point) :=
  fprintf stdout vertex_fmt [ADouble (x pt); ADouble (y pt)] ;;
  ret (poly_points ++ [{| px := to_int (x pt); py := to_int (y pt) |}])%list.

(** The body of the loop over the boxes (lines 42-49). *)
Definition box_body (bboxes : list TextDetection) (texts : list TextRecognition)
    (i : nat) (img : Mat) : M Mat :=
  t <- index texts i ;;
  fprintf stdout box_fmt [AInt (Z.of_nat i); AStr (text t)] ;;
  b <- index bboxes i ;;
  poly_points <- for_each (bbox b) vertex_body [] ;;
  fprintf stdout nl [] ;;
  polylines img poly_points true green.

Definition argv_at (argv : list string) (k : nat) : string := nth k argv EmptyString.

Definition main (argc : Z) (argv : list string) : M Z :=
  if negb (argc =? 5) then
    fprintf stderr usage [] ;;
    ret 1
  else
    let device_name := argv_at argv 1 in
    let det_model_path := argv_at argv 2 in
    let reg_model_path := argv_at argv 3 in
    let image_path := argv_at argv 4 in
    img <- imread image_path ;;
    if negb (mat_data img) then
      fprintf stderr load_failed_fmt [AStr image_path] ;;
      ret 1
    else
      device <- new_Device device_name 0 ;;
      context <- new_Context device ;;
      profiler <- new_Profiler "/deploee-tmp/profile.bin" ;;
      context <- Context_Add context profiler ;;
      det_model <- new_Model det_model_path ;;
      detector <- new_TextDetector det_model context ;;
      reg_model <- new_Model reg_model_path ;;
      recognizer <- new_TextRecognizer reg_model context ;;
      for_loop 20 0 (fun _ (_ : unit) => infer detector recognizer img ;; ret tt) tt ;;
      r <- infer detector recognizer img ;;
      let bboxes := fst r in
      let texts := snd r in
      img <- for_loop (size bboxes) 0 (box_body bboxes texts) img ;;
      imwrite "output_ocr.png" img ;;
      ret 0.

(** *** Readings of a run *)

Definition init (w : World) : State := {| world := w; log := [] |}.

Definition exit_status {A} (o : Outcome A) : option A :=
  match o with Done a _ => Some a | Fault _ => None end.

Definition is_fault {A} (o : Outcome A) : bool :=
  match o with Done _ _ => false | Fault _ => true end.

Definition final_state {A} (o : Outcome A) : State :=
  match o with Done _ s => s | Fault s => s end.

(** The log of a run of [main] started in world [w]. *)
Definition run_log (argc : Z) (argv : list string) (w : World) : list Event :=
  log (final_state (main argc argv (init w))).

Definition is_inference (e : Event) : bool :=
  match e with EDetectorApply _ _ _ | ERecognizerApply _ _ _ _ => true | _ => false end.

Definition is_sdk (e : Event) : bool :=
  match e with
  | EConstruct _ | EContextAdd _ _ | EDetectorApply _ _ _ | ERecognizerApply _ _ _ _ => true
  | _ => false
  end.

(** Console output, drawing and file writing. *)
Definition is_output (e : Event) : bool :=
  match e with
  | EFprintf stdout _ _ | EPolylines _ _ _ _ | EImwrite _ _ => true
  | _ => false
  end.

Definition stdout_calls (l : list Event) : list (string * list PrintfArg) :=
  flat_map (fun e => match e with EFprintf stdout f a => [(f, a)] | _ => [] end) l.

Definition stderr_calls (l : list Event) : list (string * list PrintfArg) :=
  flat_map (fun e => match e with EFprintf stderr f a => [(f, a)] | _ => [] end) l.

Definition polylines_calls (l : list Event) : list (Mat * list Point * bool * Scalar) :=
  flat_map (fun e => match e with EPolylines i p c k => [(i, p, c, k)] | _ => [] end) l.

Definition imwrite_calls (l : list Event) : list (string * Mat) :=
  flat_map (fun e => match e with EImwrite p i => [(p, i)] | _ => [] end) l.

Definition detections (l : list Event) : list (list TextDetection) :=
  flat_map (fun e => match e with EDetectorApply _ _ r => [r] | _ => [] end) l.

Definition recognitions (l : list Event) : list (list TextRecognition) :=
  flat_map (fun e => match e with ERecognizerApply _ _ _ r => [r] | _ => [] end) l.

(** The results of the last detection and of the last recognition of a log. *)
Definition last_detection (l : list Event) : list TextDetection := last (detections l) [].
Definition last_recognition (l : list Event) : list TextRecognition :=
  last (recognitions l) [].

(** The text of one [fprintf] call, and the text a log sends to each stream. *)
Definition render (c : string * list PrintfArg) : string := format (fst c) (snd c).
Definition stdout_text (l : list Event) : string := text_of (map render (stdout_calls l)).
Definition stderr_text (l : list Event) : string := text_of (map render (stderr_calls l)).

(** The calls of the report loop: console output and drawing. *)
Definition is_report (e : Event) : bool :=
  match e with
  | EFprintf stdout _ _ | EPolylines _ _ _ _ => true
  | _ => false
  end.

(** Both guards of [main] pass in world [w]. *)
Definition passes (argc : Z) (argv : list string) (w : World) : bool :=
  (argc =? 5) && mat_data (cv_imread (argv_at argv 4) w).

(** The diagnostic of a failed guard. *)
Definition diagnostic (argc : Z) (argv : list string) : Event :=
  if argc =? 5 then EFprintf stderr load_failed_fmt [AStr (argv_at argv 4)]
  else EFprintf stderr usage [].

Definition constructed (l : list Event) : list SdkObject :=
  flat_map (fun e => match e with EConstruct o => [o] | _ => [] end) l.

Definition imread_paths (l : list Event) : list string :=
  flat_map (fun e => match e with EImread p _ => [p] | _ => [] end) l.

(** The paths and names the constructed SDK objects were given. *)
Definition profiler_paths (l : list Event) : list string :=
  flat_map (fun o => match o with OProfiler p => [profiler_path p] | _ => [] end)
    (constructed l).
Definition model_paths (l : list Event) : list string :=
  flat_map (fun o => match o with OModel m => [model_path m] | _ => [] end)
    (constructed l).
Definition device_names (l : list Event) : list string :=
  flat_map (fun o => match o with ODevice d => [device_name d] | _ => [] end)
    (constructed l).

(** *** What a run is expected to log *)

(** The state after a computation logged the calls [evs]. *)
Definition after (s : State) (evs : list Event) : State :=
  {| world := fold_left (fun w e => advance e w) evs (world s);
     log := (log s ++ evs)%list |}.

(** The SDK objects [main] builds from its arguments. *)
Definition the_device (argv : list string) : Device :=
  {| device_name := argv_at argv 1; device_id := 0 |}.
Definition the_profiler : Profiler :=
  {| profiler_path := "/deploee-tmp/profile.bin" |}.
Definition bare_context (argv : list string) : Context :=
  {| ctx_device := the_device argv; ctx_added := [] |}.
Definition the_context (argv : list string) : Context :=
  {| ctx_device := the_device argv; ctx_added := [the_profiler] |}.
Definition the_detector (argv : list string) : TextDetector :=
  {| det_model := {| model_path := argv_at argv 2 |}; det_context := the_context argv |}.
Definition the_recognizer (argv : list string) : TextRecognizer :=
  {| reg_model := {| model_path := argv_at argv 3 |}; reg_context := the_context argv |}.

(** The calls of lines 26-31. *)
Definition setup_events (argv : list string) : list Event :=
  [ EConstruct (ODevice (the_device argv));
    EConstruct (OContext (bare_context argv));
    EConstruct (OProfiler the_profiler);
    EContextAdd (bare_context argv) the_profiler;
    EConstruct (OModel {| model_path := argv_at argv 2 |});
    EConstruct (OTextDetector (the_detector argv));
    EConstruct (OModel {| model_path := argv_at argv 3 |});
    EConstruct (OTextRecognizer (the_recognizer argv)) ].

(** One inference round: a detection on [img], then a recognition on [img]
    over the span that starts at the first box found and counts them all. *)
Definition round_events (d : TextDetector) (r : TextRecognizer) (img : Mat)
    (bxs : list TextDetection) (txs : list TextRecognition) : list Event :=
  [ EDetectorApply d img bxs;
    ERecognizerApply r img (mkSpan (begin bxs) (size bxs)) txs ].

(** [Rounds d r img n evs]: [evs] is [n] inference rounds on [img], one after
    the other. *)
Inductive Rounds (d : TextDetector) (r : TextRecognizer) (img : Mat)
  : nat -> list Event -> Prop :=
| Rounds_done : Rounds d r img 0 []
| Rounds_next n bxs txs rest :
    Rounds d r img n rest ->
    Rounds d r img (S n) (round_events d r img bxs txs ++ rest)%list.

Definition point_of (pt : mmdeploy_point_t) : Point :=
  {| px := to_int (x pt); py := to_int (y pt) |}.

(** The polygon of a box and the image after it was drawn. *)
Definition box_points (b : TextDetection) : list Point := map point_of (bbox b).
Definition draw (img : Mat) (b : TextDetection) : Mat :=
  cv_polylines img (box_points b) true green.
Definition annotate (img : Mat) (bxs : list TextDetection) : Mat :=
  fold_left draw bxs img.

Definition vertex_event (pt : mmdeploy_point_t) : Event :=
  EFprintf stdout vertex_fmt [ADouble (x pt); ADouble (y pt)].

(** The calls for box [i]: its line of text, its vertices, a line feed, its
    polygon. *)
Definition box_events (i : nat) (img : Mat) (b : TextDetection) (t : TextRecognition)
  : list Event :=
  (EFprintf stdout box_fmt [AInt (Z.of_nat i); AStr (text t)]
     :: map vertex_event (bbox b)
     ++ [EFprintf stdout nl []; EPolylines img (box_points b) true green])%list.

(** The calls for the boxes from index [i] on, as long as there is a text for
    the box. *)
Fixpoint report_events (i : nat) (img : Mat) (bxs : list TextDetection)
    (txs : list TextRecognition) : list Event :=
  match bxs, txs with
  | b :: bxs', t :: txs' =>
      (box_events i img b t ++ report_events (S i) (draw img b) bxs' txs')%list
  | _, _ => []
  end.

(** Every box has its text. *)
Definition covered (bxs : list TextDetection) (txs : list TextRecognition) : bool :=
  (List.length bxs <=? List.length txs)%nat.

(** What follows the final round: the report, and the written image when every
    box had its text. *)
Definition output_events (img : Mat) (bxs : list TextDetection)
    (txs : list TextRecognition) : list Event :=
  (report_events 0 img bxs txs
     ++ if covered bxs txs then [EImwrite "output_ocr.png" (annotate img bxs)] else [])%list.

(** The [fprintf] calls for box [i], and the text they write. *)
Definition box_calls (i : nat) (b : TextDetection) (t : TextRecognition)
  : list (string * list PrintfArg) :=
  ((box_fmt, [AInt (Z.of_nat i); AStr (text t)])
     :: map (fun pt => (vertex_fmt, [ADouble (x pt); ADouble (y pt)])) (bbox b)
     ++ [(nl, [])])%list.

Definition vertex_text (pt : mmdeploy_point_t) : string :=
  "x: " ++ fmt_2f (x pt) ++ ", y: " ++ fmt_2f (y pt) ++ ", ".

Definition box_text (i : nat) (b : TextDetection) (t : TextRecognition) : string :=
  "box[" ++ dec (Z.of_nat i) ++ "]: " ++ text t ++ nl
    ++ text_of (map vertex_text (bbox b)) ++ nl.

(** Boxes with their index and text, in order. *)
Fixpoint numbered (i : nat) (bxs : list TextDetection) (txs : list TextRecognition)
  : list (nat * TextDetection * TextRecognition) :=
  match bxs, txs with
  | b :: bxs', t :: txs' => (i, b, t) :: numbered (S i) bxs' txs'
  | _, _ => []
  end.

(** The polygons drawn for a list of boxes, each on the image the previous
    ones left. *)
Fixpoint polygons (img : Mat) (bxs : list TextDetection)
  : list (Mat * list Point * bool * Scalar) :=
  match bxs with
  | [] => []
  | b :: bxs' => (img, box_points b, true, green) :: polygons (draw img b) bxs'
  end.

(** The calls of a run stopped by a guard. *)
Definition stopped_events (argc : Z) (argv : list string) (w : World) : list Event :=
  if argc =? 5
  then [EImread (argv_at argv 4) (cv_imread (argv_at argv 4) w); diagnostic argc argv]
  else [diagnostic argc argv].

(** [Done a s] when [ok], [Fault s] otherwise. *)
Definition finish {A} (ok : bool) (a : A) (s : State) : Outcome A :=
  if ok then Done a s else Fault s.

(** *** Further readings *)

(** Construction and configuration of SDK objects. *)
Definition is_setup (e : Event) : bool :=
  match e with EConstruct _ | EContextAdd _ _ => true | _ => false end.

(** An inference call is made on detector [d], respectively recognizer [r]. *)
Definition uses (d : TextDetector) (r : TextRecognizer) (e : Event) : Prop :=
  match e with
  | EDetectorApply d' _ _ => d' = d
  | ERecognizerApply r' _ _ _ => r' = r
  | _ => True
  end.

(** The number of line feeds of a text. *)
Fixpoint count_nl (s : string) : nat :=
  match s with
  | EmptyString => 0
  | String c rest => ((if Ascii.eqb c (ascii_of_nat 10) then 1 else 0) + count_nl rest)%nat
  end.

(** The float has an integer part, and it fits [int]: [(int)] is defined. *)
Definition castable (f : float) : bool :=
  match float_integer_part f with
  | Some t => (INT_MIN <=? t) && (t <=? INT_MAX)
  | None => false
  end.

(** [t] is less than one away from [q], on the side of zero. *)
Definition toward_zero_within_one (q : Q) (t : Z) : Prop :=
  ((0 <= q)%Q -> (inject_Z t <= q)%Q /\ (q < inject_Z t + 1)%Q /\ 0 <= t)
  /\ ((q <= 0)%Q -> (inject_Z t - 1 < q)%Q /\ (q <= inject_Z t)%Q /\ t <= 0).

(** ** Runs of the program *)

Lemma after_nil (s : State) : after s [] = s.
Proof.
  destruct s as [w l]. unfold after. simpl. now rewrite app_nil_r.
Qed.

Lemma after_app (s : State) (a b : list Event) :
  after (after s a) b = after s (a ++ b).
Proof.
  unfold after. simpl. now rewrite fold_left_app, app_assoc.
Qed.

Lemma bind_Done {A B} (m : M A) (k : A -> M B) (s s' : State) (a : A) :
  m s = Done a s' -> bind m k s = k a s'.
Proof. intros E. unfold bind. now rewrite E. Qed.

Lemma bind_Fault {A B} (m : M A) (k : A -> M B) (s s' : State) :
  m s = Fault s' -> bind m k s = Fault s'.
Proof. intros E. unfold bind. now rewrite E. Qed.

Lemma emit_run (e : Event) (s : State) : emit e s = Done tt (after s [e]).
Proof. reflexivity. Qed.

(** *** Loops *)

Lemma skipn_at {A} (l : list A) : forall (i : nat) (a : A),
  nth_error l i = Some a -> skipn i l = a :: skipn (S i) l.
Proof.
  induction l as [|h l IH]; intros [|i] a E; simpl in *; try discriminate.
  - now inversion E.
  - now apply IH.
Qed.

Lemma skipn_past {A} (l : list A) (i : nat) :
  nth_error l i = None -> skipn i l = [].
Proof.
  intros E. apply skipn_all2. now apply nth_error_None.
Qed.

Lemma infer_run (d : TextDetector) (r : TextRecognizer) (img : Mat) (s : State) :
  exists bxs txs,
    infer d r img s = Done (bxs, txs) (after s (round_events d r img bxs txs)).
Proof.
  exists (detector_result d img (world s)).
  eexists.
  unfold infer, detector_Apply, recognizer_Apply, begin, size.
  unfold bind, ask, ret. rewrite !emit_run, after_app. reflexivity.
Qed.

Lemma warmup_run (d : TextDetector) (r : TextRecognizer) (img : Mat) (n : nat) :
  forall (i : nat) (s : State),
  exists evs,
    for_loop n i (fun _ (_ : unit) => bind (infer d r img) (fun _ => ret tt)) tt s
      = Done tt (after s evs)
    /\ Rounds d r img n evs.
Proof.
  induction n as [|n IH]; intros i s.
  - exists []. rewrite after_nil. split; [reflexivity | constructor].
  - destruct (infer_run d r img s) as (bxs & txs & E).
    destruct (IH (S i) (after s (round_events d r img bxs txs))) as (evs & E' & R).
    exists (round_events d r img bxs txs ++ evs)%list. split.
    + simpl for_loop.
      rewrite (bind_Done _ _ s (after s (round_events d r img bxs txs)) tt).
      * rewrite E', after_app. reflexivity.
      * rewrite (bind_Done _ _ _ _ _ E). reflexivity.
    + now constructor.
Qed.

Lemma vertices_run (pts : list mmdeploy_point_t) :
  forall (acc : list Point) (s : State),
    for_each pts vertex_body acc s
      = Done (acc ++ map point_of pts)%list (after s (map vertex_event pts)).
Proof.
  induction pts as [|pt pts IH]; intros acc s; simpl.
  - now rewrite app_nil_r, after_nil.
  - unfold bind at 1. unfold vertex_body at 1, fprintf, bind, ret.
    rewrite emit_run, IH, after_app, <- app_assoc. reflexivity.
Qed.

Lemma box_body_run (bboxes : list TextDetection) (texts : list TextRecognition)
    (i : nat) (img : Mat) (s : State) (b : TextDetection) (t : TextRecognition) :
  nth_error bboxes i = Some b ->
  nth_error texts i = Some t ->
  box_body bboxes texts i img s = Done (draw img b) (after s (box_events i img b t)).
Proof.
  intros Eb Et. unfold box_body, index, fprintf, polylines. rewrite Eb, Et.
  unfold bind, ret. rewrite emit_run, vertices_run, !emit_run, !after_app.
  reflexivity.
Qed.

Lemma box_body_fault (bboxes : list TextDetection) (texts : list TextRecognition)
    (i : nat) (img : Mat) (s : State) :
  nth_error texts i = None ->
  box_body bboxes texts i img s = Fault s.
Proof.
  intros Et. unfold box_body, index. rewrite Et. reflexivity.
Qed.

Lemma report_run (bboxes : list TextDetection) (texts : list TextRecognition) (n : nat) :
  forall (i : nat) (img : Mat) (s : State),
    (i + n = List.length bboxes)%nat ->
    for_loop n i (box_body bboxes texts) img s
      = finish (covered (skipn i bboxes) (skipn i texts))
          (annotate img (skipn i bboxes))
          (after s (report_events i img (skipn i bboxes) (skipn i texts))).
Proof.
  induction n as [|n IH]; intros i img s L.
  - rewrite skipn_all2 by lia. simpl. now rewrite after_nil.
  - destruct (nth_error bboxes i) as [b|] eqn:Eb.
    2:{ apply nth_error_None in Eb. lia. }
    rewrite (skipn_at _ _ _ Eb).
    destruct (nth_error texts i) as [t|] eqn:Et.
    + rewrite (skipn_at _ _ _ Et). simpl for_loop.
      rewrite (bind_Done _ _ _ _ _ (box_body_run _ _ _ _ _ _ _ Eb Et)).
      rewrite IH by lia. rewrite after_app. reflexivity.
    + rewrite (skipn_past _ _ Et). simpl for_loop.
      rewrite (bind_Fault _ _ _ _ (box_body_fault _ _ _ _ _ Et)).
      simpl. now rewrite after_nil.
Qed.

(** *** Readings of the parts of a log *)

Lemma flat_map_nil_on {A B} (f : A -> list B) (l : list A) :
  Forall (fun a => f a = []) l -> flat_map f l = [].
Proof.
  induction 1 as [|a l Ha _ IH]; simpl; [reflexivity|]. now rewrite Ha, IH.
Qed.

Lemma filter_all {A} (f : A -> bool) (l : list A) :
  Forall (fun a => f a = true) l -> filter f l = l.
Proof.
  induction 1 as [|a l Ha _ IH]; simpl; [reflexivity|]. now rewrite Ha, IH.
Qed.

Lemma filter_none {A} (f : A -> bool) (l : list A) :
  Forall (fun a => f a = false) l -> filter f l = [].
Proof.
  induction 1 as [|a l Ha _ IH]; simpl; [reflexivity|]. now rewrite Ha.
Qed.

Lemma Rounds_inference (d : TextDetector) (r : TextRecognizer) (img : Mat)
    (n : nat) (evs : list Event) :
  Rounds d r img n evs -> Forall (fun e => is_inference e = true) evs.
Proof.
  induction 1 as [|n bxs txs rest _ IH]; [constructor|].
  simpl. repeat constructor. exact IH.
Qed.

Lemma Rounds_app (d : TextDetector) (r : TextRecognizer) (img : Mat)
    (n m : nat) (a b : list Event) :
  Rounds d r img n a -> Rounds d r img m b -> Rounds d r img (n + m) (a ++ b).
Proof.
  induction 1 as [|n bxs txs rest _ IH]; intros Hb; [exact Hb|].
  rewrite <- app_assoc. simpl plus. constructor. now apply IH.
Qed.

Lemma Rounds_detections (d : TextDetector) (r : TextRecognizer) (img : Mat)
    (n : nat) (evs : list Event) :
  Rounds d r img n evs ->
  List.length (detections evs) = n /\ List.length (recognitions evs) = n.
Proof.
  induction 1 as [|n bxs txs rest _ [IHd IHr]]; [now split|].
  simpl. now rewrite IHd, IHr.
Qed.

Lemma report_only_reports (bxs : list TextDetection) :
  forall (i : nat) (img : Mat) (txs : list TextRecognition),
    Forall (fun e => is_report e = true) (report_events i img bxs txs).
Proof.
  induction bxs as [|b bxs IH]; intros i img [|t txs]; simpl; try constructor.
  - reflexivity.
  - apply Forall_app. split; [|apply IH].
    apply Forall_app. split.
    + apply Forall_forall. intros e He. apply in_map_iff in He.
      destruct He as (pt & <- & _). reflexivity.
    + repeat constructor.
Qed.

(** A reading that sees nothing in inference calls sees nothing in rounds;
    one that sees nothing in report calls sees nothing in the report. *)
Lemma rounds_unseen {B} (f : Event -> list B) (d : TextDetector) (r : TextRecognizer)
    (img : Mat) (n : nat) (evs : list Event) :
  (forall e, is_inference e = true -> f e = []) ->
  Rounds d r img n evs -> flat_map f evs = [].
Proof.
  intros Hf R. apply flat_map_nil_on.
  eapply Forall_impl; [|exact (Rounds_inference _ _ _ _ _ R)]. exact Hf.
Qed.

Lemma report_unseen {B} (f : Event -> list B) (i : nat) (img : Mat)
    (bxs : list TextDetection) (txs : list TextRecognition) :
  (forall e, is_report e = true -> f e = []) ->
  flat_map f (report_events i img bxs txs) = [].
Proof.
  intros Hf. apply flat_map_nil_on.
  eapply Forall_impl; [|apply report_only_reports]. exact Hf.
Qed.

Lemma stdout_calls_vertices (pts : list mmdeploy_point_t) :
  stdout_calls (map vertex_event pts)
    = map (fun pt => (vertex_fmt, [ADouble (x pt); ADouble (y pt)])) pts.
Proof.
  induction pts as [|pt pts IH]; simpl; [reflexivity|]. now rewrite <- IH.
Qed.

Lemma polylines_calls_vertices (pts : list mmdeploy_point_t) :
  polylines_calls (map vertex_event pts) = [].
Proof.
  induction pts as [|pt pts IH]; simpl; [reflexivity|]. exact IH.
Qed.

Lemma stdout_calls_box (i : nat) (img : Mat) (b : TextDetection) (t : TextRecognition) :
  stdout_calls (box_events i img b t) = box_calls i b t.
Proof.
  unfold box_events, box_calls, stdout_calls. simpl. rewrite flat_map_app.
  fold (stdout_calls (map vertex_event (bbox b))). now rewrite stdout_calls_vertices.
Qed.

Lemma polylines_calls_box (i : nat) (img : Mat) (b : TextDetection) (t : TextRecognition) :
  polylines_calls (box_events i img b t) = [(img, box_points b, true, green)].
Proof.
  unfold box_events, polylines_calls. simpl. rewrite flat_map_app.
  fold (polylines_calls (map vertex_event (bbox b))). now rewrite polylines_calls_vertices.
Qed.

Lemma stdout_calls_app (a b : list Event) :
  stdout_calls (a ++ b) = (stdout_calls a ++ stdout_calls b)%list.
Proof. apply flat_map_app. Qed.

Lemma polylines_calls_app (a b : list Event) :
  polylines_calls (a ++ b) = (polylines_calls a ++ polylines_calls b)%list.
Proof. apply flat_map_app. Qed.

Lemma report_events_cons (i : nat) (img : Mat) (b : TextDetection)
    (bxs : list TextDetection) (t : TextRecognition) (txs : list TextRecognition) :
  report_events i img (b :: bxs) (t :: txs)
    = (box_events i img b t ++ report_events (S i) (draw img b) bxs txs)%list.
Proof. reflexivity. Qed.

Lemma stdout_calls_report (bxs : list TextDetection) :
  forall (i : nat) (img : Mat) (txs : list TextRecognition),
    stdout_calls (report_events i img bxs txs)
      = flat_map (fun c => box_calls (fst (fst c)) (snd (fst c)) (snd c)) (numbered i bxs txs).
Proof.
  induction bxs as [|b bxs IH]; intros i img [|t txs]; try reflexivity.
  rewrite report_events_cons, stdout_calls_app, stdout_calls_box, IH. reflexivity.
Qed.

Lemma polylines_calls_report (bxs : list TextDetection) :
  forall (i : nat) (img : Mat) (txs : list TextRecognition),
    polylines_calls (report_events i img bxs txs)
      = polygons img (firstn (List.length txs) bxs).
Proof.
  induction bxs as [|b bxs IH]; intros i img [|t txs]; try reflexivity.
  rewrite report_events_cons, polylines_calls_app, polylines_calls_box, IH. reflexivity.
Qed.

Lemma imwrite_calls_app (a b : list Event) :
  imwrite_calls (a ++ b) = (imwrite_calls a ++ imwrite_calls b)%list.
Proof. apply flat_map_app. Qed.

Lemma stdout_calls_rounds (d : TextDetector) (r : TextRecognizer) (img : Mat)
    (n : nat) (evs : list Event) :
  Rounds d r img n evs -> stdout_calls evs = [].
Proof. apply rounds_unseen. now intros [[]| | | | | | |]. Qed.

Lemma polylines_calls_rounds (d : TextDetector) (r : TextRecognizer) (img : Mat)
    (n : nat) (evs : list Event) :
  Rounds d r img n evs -> polylines_calls evs = [].
Proof. apply rounds_unseen. now intros [[]| | | | | | |]. Qed.

Lemma imwrite_calls_rounds (d : TextDetector) (r : TextRecognizer) (img : Mat)
    (n : nat) (evs : list Event) :
  Rounds d r img n evs -> imwrite_calls evs = [].
Proof. apply rounds_unseen. now intros [[]| | | | | | |]. Qed.

Lemma imwrite_calls_report (i : nat) (img : Mat) (bxs : list TextDetection)
    (txs : list TextRecognition) :
  imwrite_calls (report_events i img bxs txs) = [].
Proof. apply report_unseen. now intros [[]| | | | | | |]. Qed.

(** *** The foreign calls, one by one *)

Lemma imread_run (path : string) (s : State) :
  imread path s
    = Done (cv_imread path (world s)) (after s [EImread path (cv_imread path (world s))]).
Proof. reflexivity. Qed.

Lemma new_Device_run (name : string) (id : Z) (s : State) :
  new_Device name id s
    = Done {| device_name := name; device_id := id |}
        (after s [EConstruct (ODevice {| device_name := name; device_id := id |})]).
Proof. reflexivity. Qed.

Lemma new_Context_run (d : Device) (s : State) :
  new_Context d s
    = Done {| ctx_device := d; ctx_added := [] |}
        (after s [EConstruct (OContext {| ctx_device := d; ctx_added := [] |})]).
Proof. reflexivity. Qed.

Lemma new_Profiler_run (path : string) (s : State) :
  new_Profiler path s
    = Done {| profiler_path := path |}
        (after s [EConstruct (OProfiler {| profiler_path := path |})]).
Proof. reflexivity. Qed.

Lemma Context_Add_run (c : Context) (p : Profiler) (s : State) :
  Context_Add c p s
    = Done {| ctx_device := ctx_device c; ctx_added := ctx_added c ++ [p] |}
        (after s [EContextAdd c p]).
Proof. reflexivity. Qed.

Lemma new_Model_run (path : string) (s : State) :
  new_Model path s
    = Done {| model_path := path |} (after s [EConstruct (OModel {| model_path := path |})]).
Proof. reflexivity. Qed.

Lemma new_TextDetector_run (m : Model) (c : Context) (s : State) :
  new_TextDetector m c s
    = Done {| det_model := m; det_context := c |}
        (after s [EConstruct (OTextDetector {| det_model := m; det_context := c |})]).
Proof. reflexivity. Qed.

Lemma new_TextRecognizer_run (m : Model) (c : Context) (s : State) :
  new_TextRecognizer m c s
    = Done {| reg_model := m; reg_context := c |}
        (after s [EConstruct (OTextRecognizer {| reg_model := m; reg_context := c |})]).
Proof. reflexivity. Qed.

Ltac run_with L := erewrite bind_Done by apply L.

(** *** The whole of [main] *)

(** Wrong number of arguments: the usage text, status 1. *)
Lemma main_usage (argc : Z) (argv : list string) (s : State) :
  argc <> 5 ->
  main argc argv s = Done 1 (after s [EFprintf stderr usage []]).
Proof.
  intros H. unfold main. apply Z.eqb_neq in H. rewrite H. reflexivity.
Qed.

(** The image has no data: the diagnostic, status 1. *)
Lemma main_no_image (argv : list string) (s : State) :
  mat_data (cv_imread (argv_at argv 4) (world s)) = false ->
  main 5 argv s
    = Done 1 (after s [ EImread (argv_at argv 4) (cv_imread (argv_at argv 4) (world s));
                        EFprintf stderr load_failed_fmt [AStr (argv_at argv 4)] ]).
Proof.
  intros H. unfold main. change (negb (5 =? 5)) with false. cbv iota.
  run_with imread_run. rewrite H. change (negb false) with true. cbv iota.
  unfold fprintf. run_with emit_run. unfold ret. now rewrite after_app.
Qed.

(** Past both guards: the setup, twenty warm-up rounds, the final round and
    what is made of its results. *)
Lemma main_run (argv : list string) (s : State) :
  let img := cv_imread (argv_at argv 4) (world s) in
  let d := the_detector argv in
  let r := the_recognizer argv in
  mat_data img = true ->
  exists warm bxs txs,
    Rounds d r img 20 warm /\
    main 5 argv s
      = finish (covered bxs txs) 0
          (after s (EImread (argv_at argv 4) img :: setup_events argv ++ warm
                      ++ round_events d r img bxs txs ++ output_events img bxs txs)).
Proof.
  intros img d r H. unfold main. change (negb (5 =? 5)) with false. cbv iota.
  run_with imread_run. fold img. rewrite H. change (negb true) with false. cbv iota.
  run_with new_Device_run. run_with new_Context_run. run_with new_Profiler_run.
  run_with Context_Add_run. run_with new_Model_run. run_with new_TextDetector_run.
  run_with new_Model_run. run_with new_TextRecognizer_run.
  rewrite !after_app. simpl app.
  fold (the_device argv) (bare_context argv) the_profiler.
  change {| ctx_device := the_device argv; ctx_added := [the_profiler] |}
    with (the_context argv).
  fold (the_detector argv) (the_recognizer argv). fold d r.
  match goal with |- context [after s ?l] => set (pre := l) end.
  destruct (warmup_run d r img 20 0 (after s pre)) as (warm & Ew & Rw).
  erewrite bind_Done by exact Ew.
  destruct (infer_run d r img (after (after s pre) warm)) as (bxs & txs & Ei).
  erewrite bind_Done by exact Ei.
  exists warm, bxs, txs. split; [exact Rw|].
  unfold bind at 1. cbv beta. simpl fst. simpl snd.
  rewrite report_run by reflexivity. simpl skipn.
  unfold output_events. rewrite !after_app.
  destruct (covered bxs txs); unfold finish.
  - unfold imwrite. run_with emit_run. unfold ret. rewrite after_app.
    subst pre. unfold setup_events. simpl app. rewrite <- ?app_assoc. reflexivity.
  - subst pre. unfold setup_events. simpl app. rewrite <- ?app_assoc.
    rewrite app_nil_r. reflexivity.
Qed.

(** *** Conversions *)

Lemma Qfloor_scaled (m : positive) (e : Z) :
  Qfloor (inject_Z (Zpos m) * (2 # 1) ^ e)%Q = Z.shiftl (Zpos m) e.
Proof.
  destruct e as [|p|p].
  - rewrite Z.shiftl_0_r. simpl Qpower. rewrite Qmult_1_r. apply Qfloor_Z.
  - rewrite Z.shiftl_mul_pow2 by lia.
    change (2 # 1)%Q with (inject_Z 2).
    rewrite <- Zpower_Qpower by lia. rewrite <- inject_Z_mult. apply Qfloor_Z.
  - change (Z.shiftl (Zpos m) (Zneg p)) with (Z.shiftr (Zpos m) (Zpos p)).
    rewrite Z.shiftr_div_pow2 by lia.
    rewrite Qpower_decomp_neg_pos. rewrite Z.pow_1_l by lia.
    assert (E : (inject_Z (Zpos m) * (1 # 2 ^ p) == Zpos m # 2 ^ p)%Q).
    { unfold Qeq. simpl. lia. }
    rewrite E. unfold Qfloor. now rewrite Pos2Z.inj_pow.
Qed.

Lemma scaled_positive (m : positive) (e : Z) :
  (0 < inject_Z (Zpos m) * (2 # 1) ^ e)%Q.
Proof.
  apply Qmult_lt_0_compat.
  - reflexivity.
  - apply Qpower_0_lt. reflexivity.
Qed.

(** The integer part taken by shifting is the truncation toward zero of the
    value. *)
Lemma integer_part_truncates (f : float) (t : Z) :
  float_integer_part f = Some t -> t = truncate_toward_zero (float_value f).
Proof.
  destruct f as [s|s| |s m e]; simpl; intros E; inversion E; subst; clear E.
  - reflexivity.
  - pose proof (scaled_positive m e) as Pos.
    unfold truncate_toward_zero. destruct s.
    + destruct (Qle_bool 0 _) eqn:B.
      * apply Qle_bool_iff in B. exfalso.
        apply (Qlt_irrefl 0). eapply Qlt_le_trans; [exact Pos|].
        setoid_replace (inject_Z (Zpos m) * (2 # 1) ^ e)%Q
          with (- (- (1) * (inject_Z (Zpos m) * (2 # 1) ^ e)))%Q by ring.
        change 0%Q with (- 0)%Q. now apply Qopp_le_compat.
      * unfold Qceiling. f_equal. rewrite <- Qfloor_scaled. apply Qfloor_comp. ring.
    + destruct (Qle_bool 0 _) eqn:B.
      * rewrite <- Qfloor_scaled. apply Qfloor_comp. ring.
      * exfalso.
        assert (Qle_bool 0 (1 * (inject_Z (Zpos m) * (2 # 1) ^ e)) = true); [|congruence].
        apply Qle_bool_iff. rewrite Qmult_1_l. now apply Qlt_le_weak.
Qed.

Lemma to_int_in_range (f : float) (t : Z) :
  float_integer_part f = Some t -> INT_MIN <= t <= INT_MAX -> to_int f = t.
Proof.
  intros E [Lo Hi]. unfold to_int, float_to_int. rewrite E.
  apply Z.leb_le in Lo, Hi. now rewrite Lo, Hi.
Qed.

(** *** Texts *)

Lemma str_app_assoc (a b c : string) : (a ++ b) ++ c = a ++ (b ++ c).
Proof. induction a as [|ch a IH]; simpl; [reflexivity|]. now rewrite IH. Qed.

Lemma str_app_nil_r (a : string) : a ++ EmptyString = a.
Proof. induction a as [|ch a IH]; simpl; [reflexivity|]. now rewrite IH. Qed.

Lemma text_of_app (a b : list string) : text_of (a ++ b) = text_of a ++ text_of b.
Proof.
  induction a as [|h a IH]; simpl; [reflexivity|]. now rewrite IH, str_app_assoc.
Qed.

Lemma no_point_app (a b : string) : no_point (a ++ b) = no_point a && no_point b.
Proof.
  induction a as [|ch a IH]; simpl; [reflexivity|]. now rewrite IH, andb_assoc.
Qed.

Lemma no_point_uint (d : Decimal.uint) : no_point (NilEmpty.string_of_uint d) = true.
Proof. induction d; simpl; auto. Qed.

Lemma no_point_dec (z : Z) : no_point (dec z) = true.
Proof.
  unfold dec, NilZero.string_of_int, NilZero.string_of_uint.
  destruct (Z.to_int z) as [d|d]; destruct d; simpl; auto using no_point_uint.
Qed.

Lemma is_digit_digit (z : Z) : 0 <= z < 10 -> is_digit (digit z) = true.
Proof.
  intros H.
  assert (C : z = 0 \/ z = 1 \/ z = 2 \/ z = 3 \/ z = 4 \/ z = 5 \/ z = 6
              \/ z = 7 \/ z = 8 \/ z = 9) by lia.
  repeat (destruct C as [-> | C]; [reflexivity|]). now subst.
Qed.

Lemma fixed2_two_decimals (s : bool) (h : Z) : two_decimals (fixed2 s h).
Proof.
  exists (sign_text s ++ dec (h / 100)), (digit (h / 10 mod 10)), (digit (h mod 10)).
  split; [|split; [|split]].
  - unfold fixed2. now rewrite str_app_assoc.
  - rewrite no_point_app, no_point_dec. now destruct s.
  - apply is_digit_digit. apply Z.mod_pos_bound. lia.
  - apply is_digit_digit. apply Z.mod_pos_bound. lia.
Qed.

Lemma fmt_2f_two_decimals (f : float) : is_finite f = true -> two_decimals (fmt_2f f).
Proof.
  destruct f; simpl; intros H; try discriminate; apply fixed2_two_decimals.
Qed.

Lemma format_box (i : Z) (t : string) :
  format box_fmt [AInt i; AStr t] = "box[" ++ dec i ++ "]: " ++ t ++ nl.
Proof. reflexivity. Qed.

Lemma format_vertex (a b : float) :
  format vertex_fmt [ADouble a; ADouble b]
    = "x: " ++ fmt_2f a ++ ", y: " ++ fmt_2f b ++ ", ".
Proof. reflexivity. Qed.

Lemma format_load_failed (p : string) :
  format load_failed_fmt [AStr p] = "failed to load image: " ++ p ++ nl.
Proof. reflexivity. Qed.

Lemma text_of_cons (h : string) (l : list string) : text_of (h :: l) = h ++ text_of l.
Proof. reflexivity. Qed.

Lemma text_of_vertices (pts : list mmdeploy_point_t) :
  text_of (map render (map (fun pt => (vertex_fmt, [ADouble (x pt); ADouble (y pt)])) pts))
    = text_of (map vertex_text pts).
Proof.
  induction pts as [|pt pts IH]; [reflexivity|].
  rewrite !map_cons. cbn [text_of fold_right]. fold (text_of (map vertex_text pts)).
  rewrite <- IH. reflexivity.
Qed.

Lemma text_of_box_calls (i : nat) (b : TextDetection) (t : TextRecognition) :
  text_of (map render (box_calls i b t)) = box_text i b t.
Proof.
  unfold box_calls, box_text.
  rewrite map_cons, map_app, text_of_cons, text_of_app, text_of_vertices.
  change (render (box_fmt, [AInt (Z.of_nat i); AStr (text t)]))
    with (format box_fmt [AInt (Z.of_nat i); AStr (text t)]).
  change (text_of (map render [(nl, [])])) with (nl ++ EmptyString).
  rewrite format_box, str_app_nil_r, !str_app_assoc. reflexivity.
Qed.

Lemma stdout_text_boxes (l : list (nat * TextDetection * TextRecognition)) :
  text_of (map render
             (flat_map (fun c => box_calls (fst (fst c)) (snd (fst c)) (snd c)) l))
    = text_of (map (fun c => box_text (fst (fst c)) (snd (fst c)) (snd c)) l).
Proof.
  induction l as [|c l IH]; [reflexivity|].
  cbn [flat_map]. rewrite map_app, text_of_app, text_of_box_calls, IH. reflexivity.
Qed.

(** [numbered] pairs the boxes that have a text with their index and text. *)
Lemma numbered_indices (bxs : list TextDetection) :
  forall (i : nat) (txs : list TextRecognition),
    map (fun c => fst (fst c)) (numbered i bxs txs)
      = seq i (Nat.min (List.length bxs) (List.length txs))
    /\ map (fun c => snd (fst c)) (numbered i bxs txs) = firstn (List.length txs) bxs
    /\ map snd (numbered i bxs txs) = firstn (List.length bxs) txs.
Proof.
  induction bxs as [|b bxs IH]; intros i [|t txs]; simpl; try (repeat split; reflexivity).
  destruct (IH (S i) txs) as (E1 & E2 & E3). now rewrite E1, E2, E3.
Qed.

Lemma numbered_at (bxs : list TextDetection) :
  forall (txs : list TextRecognition) (k j : nat) (b : TextDetection) (t : TextRecognition),
    nth_error bxs j = Some b -> nth_error txs j = Some t ->
    In ((k + j)%nat, b, t) (numbered k bxs txs).
Proof.
  induction bxs as [|b0 bxs IH]; intros [|t0 txs] k [|j] b t Eb Et;
    simpl in *; try discriminate.
  - inversion Eb. inversion Et. left. now rewrite Nat.add_0_r.
  - right. replace (k + S j)%nat with (S k + j)%nat by lia. now apply IH.
Qed.


(** *** Runs from the initial state *)

Lemma passes_true (argc : Z) (argv : list string) (w : World) :
  passes argc argv w = true <->
  argc = 5 /\ mat_data (cv_imread (argv_at argv 4) w) = true.
Proof.
  unfold passes. rewrite andb_true_iff, Z.eqb_eq. reflexivity.
Qed.

Lemma passes_false (argc : Z) (argv : list string) (w : World) :
  passes argc argv w = false <->
  argc <> 5 \/ mat_data (cv_imread (argv_at argv 4) w) = false.
Proof.
  unfold passes. rewrite andb_false_iff, Z.eqb_neq. reflexivity.
Qed.

Lemma run_stopped (argc : Z) (argv : list string) (s : State) :
  passes argc argv (world s) = false ->
  main argc argv s = Done 1 (after s (stopped_events argc argv (world s))).
Proof.
  intros H. unfold stopped_events, diagnostic.
  destruct (Z.eqb_spec argc 5) as [->|Hn].
  - apply main_no_image. apply passes_false in H. destruct H as [H|H]; [lia|exact H].
  - now apply main_usage.
Qed.

Lemma run_passed (argc : Z) (argv : list string) (s : State) :
  let img := cv_imread (argv_at argv 4) (world s) in
  let d := the_detector argv in
  let r := the_recognizer argv in
  passes argc argv (world s) = true ->
  exists warm bxs txs,
    Rounds d r img 20 warm /\
    main argc argv s
      = finish (covered bxs txs) 0
          (after s (EImread (argv_at argv 4) img :: setup_events argv ++ warm
                      ++ round_events d r img bxs txs ++ output_events img bxs txs)).
Proof.
  intros img d r H. apply passes_true in H. destruct H as [-> H].
  now apply main_run.
Qed.

Lemma final_state_finish {A} (ok : bool) (a : A) (s : State) :
  final_state (finish ok a s) = s.
Proof. now destruct ok. Qed.

Lemma exit_status_finish {A} (ok : bool) (a : A) (s : State) :
  exit_status (finish ok a s) = if ok then Some a else None.
Proof. now destruct ok. Qed.

Lemma is_fault_finish {A} (ok : bool) (a : A) (s : State) :
  is_fault (finish ok a s) = negb ok.
Proof. now destruct ok. Qed.

Lemma run_log_stopped (argc : Z) (argv : list string) (w : World) :
  passes argc argv w = false ->
  run_log argc argv w = stopped_events argc argv w.
Proof.
  intros H. unfold run_log. now rewrite (run_stopped argc argv (init w) H).
Qed.

Lemma run_log_passed (argc : Z) (argv : list string) (w : World) :
  let img := cv_imread (argv_at argv 4) w in
  let d := the_detector argv in
  let r := the_recognizer argv in
  passes argc argv w = true ->
  exists warm bxs txs,
    Rounds d r img 20 warm
    /\ run_log argc argv w
        = (EImread (argv_at argv 4) img :: setup_events argv ++ warm
             ++ round_events d r img bxs txs ++ output_events img bxs txs)%list
    /\ exit_status (main argc argv (init w)) = (if covered bxs txs then Some 0 else None)
    /\ last_detection (run_log argc argv w) = bxs
    /\ last_recognition (run_log argc argv w) = txs.
Proof.
  intros img d r H.
  destruct (run_passed argc argv (init w) H) as (warm & bxs & txs & R & E).
  exists warm, bxs, txs. split; [exact R|].
  assert (L : run_log argc argv w
              = (EImread (argv_at argv 4) img :: setup_events argv ++ warm
                   ++ round_events d r img bxs txs ++ output_events img bxs txs)%list).
  { unfold run_log. rewrite E, final_state_finish. reflexivity. }
  split; [exact L|]. split; [now rewrite E, exit_status_finish|].
  rewrite L. unfold last_detection, last_recognition, detections, recognitions.
  change (EImread (argv_at argv 4) img :: setup_events argv ++ warm
            ++ round_events d r img bxs txs ++ output_events img bxs txs)%list
    with ((EImread (argv_at argv 4) img :: setup_events argv) ++ warm
            ++ round_events d r img bxs txs ++ output_events img bxs txs)%list.
  unfold output_events. rewrite !flat_map_app.
  rewrite !(report_unseen _ 0 img bxs txs) by (now intros [[]| | | | | | |]).
  split.
  - replace (flat_map _ (if covered bxs txs then _ else _)) with (@nil (list TextDetection))
      by now destruct (covered bxs txs).
    simpl. rewrite ?app_nil_r. apply last_last.
  - replace (flat_map _ (if covered bxs txs then _ else _)) with (@nil (list TextRecognition))
      by now destruct (covered bxs txs).
    simpl. rewrite ?app_nil_r. apply last_last.
Qed.

(** What the readings of a run past the guards show, in terms of the results
    of its last detection and recognition. *)
Lemma passed_readings (argc : Z) (argv : list string) (w : World) :
  let img := cv_imread (argv_at argv 4) w in
  let L := run_log argc argv w in
  let bxs := last_detection L in
  let txs := last_recognition L in
  passes argc argv w = true ->
  stdout_calls L
    = flat_map (fun c => box_calls (fst (fst c)) (snd (fst c)) (snd c)) (numbered 0 bxs txs)
  /\ polylines_calls L = polygons img (firstn (List.length txs) bxs)
  /\ imwrite_calls L
      = (if covered bxs txs then [("output_ocr.png", annotate img bxs)] else [])
  /\ exit_status (main argc argv (init w)) = (if covered bxs txs then Some 0 else None)
  /\ filter is_output L = output_events img bxs txs.
Proof.
  intros img L bxs txs P. subst L bxs txs.
  destruct (run_log_passed argc argv w P) as (warm & bxs & txs & R & L & E & -> & ->).
  fold img in L, R. rewrite L. rewrite app_comm_cons.
  unfold output_events.
  rewrite !stdout_calls_app, !polylines_calls_app, !imwrite_calls_app, !filter_app.
  rewrite (stdout_calls_rounds _ _ _ _ _ R), (polylines_calls_rounds _ _ _ _ _ R),
    (imwrite_calls_rounds _ _ _ _ _ R).
  rewrite stdout_calls_report, polylines_calls_report, imwrite_calls_report.
  rewrite (filter_none _ warm)
    by (eapply Forall_impl; [|exact (Rounds_inference _ _ _ _ _ R)];
        now intros [[]| | | | | | |]).
  rewrite (filter_all _ (report_events 0 img bxs txs))
    by (eapply Forall_impl; [|apply report_only_reports]; now intros [[]| | | | | | |]).
  destruct (covered bxs txs); simpl; rewrite ?app_nil_r; repeat split; assumption.
Qed.

Lemma fault_no_status {A} (o : Outcome A) : is_fault o = true <-> exit_status o = None.
Proof. destruct o; simpl; split; intros; congruence. Qed.

Lemma constructed_app (a b : list Event) :
  constructed (a ++ b) = (constructed a ++ constructed b)%list.
Proof. apply flat_map_app. Qed.

Lemma imread_paths_app (a b : list Event) :
  imread_paths (a ++ b) = (imread_paths a ++ imread_paths b)%list.
Proof. apply flat_map_app. Qed.

(** The SDK objects a run past the guards builds and the image it reads. *)
Lemma passed_objects (argc : Z) (argv : list string) (w : World) :
  let L := run_log argc argv w in
  passes argc argv w = true ->
  constructed L
    = [ ODevice (the_device argv); OContext (bare_context argv); OProfiler the_profiler;
        OModel {| model_path := argv_at argv 2 |}; OTextDetector (the_detector argv);
        OModel {| model_path := argv_at argv 3 |}; OTextRecognizer (the_recognizer argv) ]
  /\ imread_paths L = [argv_at argv 4].
Proof.
  intros L P. subst L.
  destruct (run_log_passed argc argv w P) as (warm & bxs & txs & R & L & _).
  assert (Q : forall B (f : Event -> list B),
             (forall e, is_inference e = true -> f e = []) ->
             (forall e, is_report e = true -> f e = []) ->
             (forall p i, f (EImwrite p i) = []) ->
             flat_map f (run_log argc argv w)
             = flat_map f (EImread (argv_at argv 4) (cv_imread (argv_at argv 4) w)
                             :: setup_events argv)).
  { intros B f Hi Hr Hw. rewrite L, app_comm_cons. unfold output_events.
    rewrite !flat_map_app.
    rewrite (rounds_unseen f _ _ _ _ _ Hi R).
    rewrite (report_unseen f _ _ _ _ Hr).
    replace (flat_map f (if covered bxs txs then _ else _)) with (@nil B)
      by (destruct (covered bxs txs); simpl; now rewrite ?Hw).
    replace (flat_map f (round_events _ _ _ bxs txs)) with (@nil B)
      by (unfold round_events; simpl; now rewrite !Hi by reflexivity).
    now rewrite !app_nil_r. }
  split.
  - unfold constructed. rewrite Q; try reflexivity; now intros [[]| | | | | | |].
  - unfold imread_paths. rewrite Q; try reflexivity; now intros [[]| | | | | | |].
Qed.

Lemma firstn_within {A} (n : nat) : forall (l : list A) (a : A),
  In a (firstn n l) -> In a l.
Proof.
  induction n as [|n IH]; intros [|h l] a H; simpl in *; try contradiction.
  destruct H as [H|H]; [now left|right; now apply IH].
Qed.

Lemma polygons_from_boxes (bxs : list TextDetection) :
  forall (img i : Mat) (pts : list Point) (c : bool) (k : Scalar),
    In (i, pts, c, k) (polygons img bxs) ->
    exists b, In b bxs /\ pts = box_points b /\ c = true /\ k = green.
Proof.
  induction bxs as [|b bxs IH]; intros img i pts c k H; simpl in H; [contradiction|].
  destruct H as [H|H].
  - inversion H. subst. exists b. auto with datatypes.
  - destruct (IH _ _ _ _ _ H) as (b' & I & E). exists b'. auto with datatypes.
Qed.

(** ** The claims *)

(** C1. [main] returns 1 exactly when the argument count is not 5 or the
    loaded image has no data; a run that passes both checks and completes
    returns 0, and no other status is ever returned. *)
Theorem exit_status_by_guards (argc : Z) (argv : list string) (s : State) :
  let r := main argc argv s in
  let failed := argc <> 5 \/ mat_data (cv_imread (argv_at argv 4) (world s)) = false in
  (exit_status r = Some 1 <-> failed) /\
  (~ failed -> is_fault r = false -> exit_status r = Some 0) /\
  (forall c, exit_status r = Some c -> c = 1 \/ c = 0).
Proof.
  intros r failed. subst r.
  destruct (passes argc argv (world s)) eqn:P.
  - assert (NF : ~ failed) by (unfold failed; rewrite <- passes_false, P; discriminate).
    destruct (run_passed argc argv s P) as (warm & bxs & txs & _ & E).
    rewrite E, exit_status_finish, is_fault_finish.
    destruct (covered bxs txs); simpl; repeat split; intros;
      try discriminate; try contradiction; try reflexivity.
    + inversion H. now right.
  - assert (F : failed) by (unfold failed; now rewrite <- passes_false).
    rewrite (run_stopped argc argv s P). simpl. repeat split; intros;
      try contradiction; try assumption.
    inversion H. now left.
Qed.

(** C2. Among the calls of any run, the inference calls come in rounds: a
    detection on the loaded image, immediately followed by a recognition on
    the same image over the span whose pointer is the start of the boxes
    that detection returned and whose count is their number, so that the
    span denotes exactly those boxes.  A run that passes the guards makes 21
    such rounds; a run stopped by a guard makes none. *)
Theorem inference_in_rounds (argc : Z) (argv : list string) (w : World) :
  Rounds (the_detector argv) (the_recognizer argv) (cv_imread (argv_at argv 4) w)
    (if passes argc argv w then 21 else 0)
    (filter is_inference (run_log argc argv w))
  /\ (forall bxs : list TextDetection,
        span_elems (mkSpan (begin bxs) (size bxs)) = bxs).
Proof.
  split.
  - destruct (passes argc argv w) eqn:P.
    + destruct (run_log_passed argc argv w P) as (warm & bxs & txs & R & L & _).
      rewrite L.
      rewrite app_comm_cons, !filter_app.
      rewrite (filter_all _ warm) by exact (Rounds_inference _ _ _ _ _ R).
      rewrite (filter_none _ (output_events _ bxs txs)).
      * simpl. rewrite ?app_nil_r. apply (Rounds_app _ _ _ 20 1); [exact R|].
        apply (Rounds_next _ _ _ 0 bxs txs []). constructor.
      * unfold output_events. apply Forall_app. split.
        -- eapply Forall_impl; [|apply report_only_reports].
           now intros [[]| | | | | | |].
        -- destruct (covered bxs txs); repeat constructor.
    + rewrite (run_log_stopped argc argv w P). unfold stopped_events, diagnostic.
      destruct (argc =? 5); constructor.
  - intros bxs. apply firstn_all.
Qed.

(** C3. A run that passes the guards logs, after the image load and the SDK
    setup and before any output call, exactly 20 inference rounds on the
    loaded image; no output call is made up to the end of these rounds, and
    every output call of the run is made from the results [bxs], [txs] of
    the round that follows them, so the results of the 20 rounds are not
    used. *)
Theorem warm_up_rounds_discarded (argc : Z) (argv : list string) (w : World) :
  let img := cv_imread (argv_at argv 4) w in
  let d := the_detector argv in
  let r := the_recognizer argv in
  let L := run_log argc argv w in
  let load_and_setup := EImread (argv_at argv 4) img :: setup_events argv in
  passes argc argv w = true ->
  exists warm bxs txs,
    L = (load_and_setup ++ warm
           ++ round_events d r img bxs txs ++ output_events img bxs txs)%list
    /\ Rounds d r img 20 warm
    /\ List.length (detections warm) = 20%nat
    /\ List.length (recognitions warm) = 20%nat
    /\ filter is_inference load_and_setup = []
    /\ filter is_output (load_and_setup ++ warm) = []
    /\ filter is_output L = output_events img bxs txs.
Proof.
  intros img d r L pre P.
  destruct (passed_readings argc argv w P) as (_ & _ & _ & _ & O).
  destruct (run_log_passed argc argv w P) as (warm & bxs & txs & R & E & _ & Eb & Et).
  rewrite Eb, Et in O.
  exists warm, bxs, txs.
  destruct (Rounds_detections _ _ _ _ _ R) as [Nd Nr].
  split; [exact E|]. split; [exact R|]. split; [exact Nd|]. split; [exact Nr|].
  split; [reflexivity|]. split; [|exact O].
  rewrite filter_app. rewrite (filter_none _ warm); [reflexivity|].
  eapply Forall_impl; [|exact (Rounds_inference _ _ _ _ _ R)].
  now intros [[]| | | | | | |].
Qed.

(** C4. In a run that passes the guards, the 20 warm-up detections and
    recognitions are followed by exactly one more detection and one more
    recognition (21 of each in all, none after), and the console calls, the
    polygons and the written image of the run are those made from the
    results of this last round. *)
Theorem single_final_inference (argc : Z) (argv : list string) (w : World) :
  let img := cv_imread (argv_at argv 4) w in
  let d := the_detector argv in
  let r := the_recognizer argv in
  let L := run_log argc argv w in
  let bxs := last_detection L in
  let txs := last_recognition L in
  passes argc argv w = true ->
  (exists before,
      L = (before ++ round_events d r img bxs txs ++ output_events img bxs txs)%list
      /\ List.length (detections before) = 20%nat
      /\ List.length (recognitions before) = 20%nat)
  /\ List.length (detections L) = 21%nat
  /\ List.length (recognitions L) = 21%nat
  /\ filter is_inference (output_events img bxs txs) = []
  /\ stdout_calls L
      = flat_map (fun c => box_calls (fst (fst c)) (snd (fst c)) (snd c)) (numbered 0 bxs txs)
  /\ polylines_calls L = polygons img (firstn (List.length txs) bxs)
  /\ imwrite_calls L
      = (if covered bxs txs then [("output_ocr.png", annotate img bxs)] else []).
Proof.
  intros img d r L bxs txs P.
  destruct (passed_readings argc argv w P) as (So & Po & Io & _ & _).
  fold img L bxs txs in So, Po, Io.
  destruct (run_log_passed argc argv w P) as (warm & bxs' & txs' & R & E & _ & Eb & Et).
  fold L bxs in Eb. fold L txs in Et. subst bxs' txs'. fold L img d r in E, R.
  destruct (Rounds_detections _ _ _ _ _ R) as [Nd Nr].
  assert (Q : filter is_inference (output_events img bxs txs) = []).
  { apply filter_none. unfold output_events. apply Forall_app. split.
    - eapply Forall_impl; [|apply report_only_reports]. now intros [[]| | | | | | |].
    - destruct (covered bxs txs); repeat constructor. }
  assert (Dq : detections (output_events img bxs txs) = []).
  { unfold output_events, detections. rewrite flat_map_app.
    rewrite (report_unseen _ 0 img bxs txs) by (now intros [[]| | | | | | |]).
    now destruct (covered bxs txs). }
  assert (Rq : recognitions (output_events img bxs txs) = []).
  { unfold output_events, recognitions. rewrite flat_map_app.
    rewrite (report_unseen _ 0 img bxs txs) by (now intros [[]| | | | | | |]).
    now destruct (covered bxs txs). }
  repeat split; try assumption.
  - exists (EImread (argv_at argv 4) img :: setup_events argv ++ warm)%list.
    repeat split.
    + rewrite E. rewrite !app_comm_cons, <- !app_assoc. reflexivity.
    + rewrite app_comm_cons. unfold detections in *. rewrite flat_map_app, length_app.
      simpl. exact Nd.
    + rewrite app_comm_cons. unfold recognitions in *. rewrite flat_map_app, length_app.
      simpl. exact Nr.
  - rewrite E, app_comm_cons. unfold detections in *.
    rewrite !flat_map_app, Dq, !length_app, Nd. reflexivity.
  - rewrite E, app_comm_cons. unfold recognitions in *.
    rewrite !flat_map_app, Rq, !length_app, Nr. reflexivity.
Qed.

(** C5. In a run that passes the guards and in which every box of the final
    detection has its text, the polygons drawn are, box by box and in order,
    the closed polygon through the vertices of the box, each drawn on the
    image as the previous ones left it; after them the annotated image is
    written to [output_ocr.png], once, as the last call of the run, which
    returns 0. *)
Theorem polygons_then_one_write (argc : Z) (argv : list string) (w : World) :
  let img := cv_imread (argv_at argv 4) w in
  let L := run_log argc argv w in
  let bxs := last_detection L in
  let txs := last_recognition L in
  passes argc argv w = true ->
  covered bxs txs = true ->
  exit_status (main argc argv (init w)) = Some 0
  /\ polylines_calls L = polygons img bxs
  /\ map (fun c => (snd (fst (fst c)), snd (fst c))) (polylines_calls L)
      = map (fun b => (map point_of (bbox b), true)) bxs
  /\ imwrite_calls L = [("output_ocr.png", annotate img bxs)]
  /\ (exists before,
        L = (before ++ [EImwrite "output_ocr.png" (annotate img bxs)])%list
        /\ polylines_calls before = polygons img bxs).
Proof.
  intros img L bxs txs P C.
  destruct (passed_readings argc argv w P) as (_ & Po & Io & X & _).
  fold img L bxs txs in Po, Io, X. rewrite C in Io, X.
  assert (F : firstn (List.length txs) bxs = bxs).
  { apply firstn_all2. unfold covered in C. now apply Nat.leb_le in C. }
  rewrite F in Po.
  destruct (run_log_passed argc argv w P) as (warm & bxs' & txs' & R & E & _ & Eb & Et).
  fold L bxs in Eb. fold L txs in Et. subst bxs' txs'. fold L img in E, R.
  repeat split; try assumption.
  - rewrite Po. clear. generalize img. induction bxs as [|b l IH]; intros i; simpl.
    + reflexivity.
    + now rewrite IH.
  - unfold output_events in E. rewrite C in E.
    exists (EImread (argv_at argv 4) img :: setup_events argv ++ warm
              ++ round_events (the_detector argv) (the_recognizer argv) img bxs txs
              ++ report_events 0 img bxs txs)%list.
    split.
    + rewrite E. rewrite !app_comm_cons, <- !app_assoc. reflexivity.
    + rewrite app_comm_cons, !polylines_calls_app.
      rewrite (polylines_calls_rounds _ _ _ _ _ R), polylines_calls_report, F.
      reflexivity.
Qed.

(** C6. When a guard fails, the run returns 1 having made, besides the read
    of the image that the second guard tests, one call only: the diagnostic
    on stderr.  That call is the only change to the world; no SDK object is
    constructed, no inference is made, nothing is printed to stdout, drawn
    or written. *)
Theorem guard_failure_only_diagnostic (argc : Z) (argv : list string) (w : World) :
  let img := cv_imread (argv_at argv 4) w in
  let r := main argc argv (init w) in
  let L := run_log argc argv w in
  argc <> 5 \/ mat_data img = false ->
  exit_status r = Some 1
  /\ L = (if argc =? 5
          then [EImread (argv_at argv 4) img;
                EFprintf stderr load_failed_fmt [AStr (argv_at argv 4)]]
          else [EFprintf stderr usage []])
  /\ filter (fun e => negb (reads_only e)) L = [diagnostic argc argv]
  /\ stderr_text L
      = (if argc =? 5 then "failed to load image: " ++ argv_at argv 4 ++ nl else usage)
  /\ world (final_state r) = world_step (diagnostic argc argv) w
  /\ filter is_sdk L = []
  /\ filter is_inference L = []
  /\ filter is_output L = [].
Proof.
  intros img r L H. subst r L. apply passes_false in H.
  rewrite (run_log_stopped argc argv w H), (run_stopped argc argv (init w) H).
  unfold stopped_events, diagnostic, stderr_text.
  destruct (argc =? 5); simpl; rewrite ?str_app_nil_r; repeat split; reflexivity.
Qed.

(** C7. In a run that passes the guards and in which every box of the final
    detection has its text, stdout receives, for the boxes in order
    [0, 1, 2, ...], the line [box[i]: text], then for each vertex of the box
    its [x] and [y] under [%.2f], then a line feed; a finite coordinate under
    [%.2f] is written with exactly two decimal places. *)
Theorem stdout_box_lines (argc : Z) (argv : list string) (w : World) :
  let L := run_log argc argv w in
  let bxs := last_detection L in
  let txs := last_recognition L in
  let rows := numbered 0 bxs txs in
  passes argc argv w = true ->
  covered bxs txs = true ->
  stdout_calls L = flat_map (fun c => box_calls (fst (fst c)) (snd (fst c)) (snd c)) rows
  /\ stdout_text L = text_of (map (fun c => box_text (fst (fst c)) (snd (fst c)) (snd c)) rows)
  /\ map (fun c => fst (fst c)) rows = seq 0 (List.length bxs)
  /\ map (fun c => snd (fst c)) rows = bxs
  /\ map snd rows = firstn (List.length bxs) txs
  /\ (forall f, is_finite f = true -> two_decimals (fmt_2f f)).
Proof.
  intros L bxs txs rows P C.
  destruct (passed_readings argc argv w P) as (So & _).
  fold L bxs txs rows in So.
  destruct (numbered_indices bxs 0 txs) as (E1 & E2 & E3). fold rows in E1, E2, E3.
  unfold covered in C. apply Nat.leb_le in C.
  split; [exact So|]. split.
  { unfold stdout_text. rewrite So. apply stdout_text_boxes. }
  split; [now rewrite E1, Nat.min_l|].
  split; [now rewrite E2, firstn_all2|].
  split; [exact E3|]. exact fmt_2f_two_decimals.
Qed.

(** C8. In a run that passes the guards the loop reads [texts[i]] for the
    indices of the boxes of the final detection.  The run stays within the
    recognizer's results exactly when there are at least as many texts as
    boxes; then every index of a box has a text, the text read at each index
    is the one printed for it, and the run completes; otherwise it reaches
    an access outside the results. *)
Theorem text_index_in_bounds (argc : Z) (argv : list string) (w : World) :
  let r := main argc argv (init w) in
  let L := run_log argc argv w in
  let bxs := last_detection L in
  let txs := last_recognition L in
  passes argc argv w = true ->
  (is_fault r = false <-> (List.length bxs <= List.length txs)%nat)
  /\ ((List.length bxs <= List.length txs)%nat <->
      (forall i, (i < List.length bxs)%nat -> nth_error txs i <> None))
  /\ ((List.length bxs <= List.length txs)%nat ->
      exit_status r = Some 0
      /\ (forall i b, nth_error bxs i = Some b ->
           exists t, nth_error txs i = Some t
                     /\ In (box_fmt, [AInt (Z.of_nat i); AStr (text t)]) (stdout_calls L))).
Proof.
  intros r L bxs txs P.
  destruct (passed_readings argc argv w P) as (So & _ & _ & X & _).
  fold L bxs txs in So. fold r L bxs txs in X.
  assert (F : is_fault r = false <-> (List.length bxs <= List.length txs)%nat).
  { unfold covered in X. destruct (Nat.leb_spec (List.length bxs) (List.length txs)).
    - split; [auto|]. intros _. destruct (is_fault r) eqn:Fr; [|reflexivity].
      apply fault_no_status in Fr. congruence.
    - split; [|lia]. intros Fr. apply fault_no_status in X. congruence. }
  split; [exact F|]. split; [|intros C; split].
  - split.
    + intros C i Hi N. apply nth_error_None in N. lia.
    + intros A. destruct (Nat.le_gt_cases (List.length bxs) (List.length txs)) as [|G];
        [assumption|].
      exfalso. apply (A (List.length txs) G). now apply nth_error_None.
  - unfold covered in X. apply Nat.leb_le in C. now rewrite C in X.
  - intros i b Eb.
    assert (Hi : (i < List.length bxs)%nat).
    { apply nth_error_Some. congruence. }
    destruct (nth_error txs i) as [t|] eqn:Et.
    2:{ apply nth_error_None in Et. lia. }
    exists t. split; [reflexivity|]. rewrite So. apply in_flat_map.
    exists (i, b, t). split.
    + exact (numbered_at bxs txs 0 i b t Eb Et).
    + left. reflexivity.
Qed.

(** C9. Whatever the arguments, every image written goes to
    [output_ocr.png] and every profiler is given [/deploee-tmp/profile.bin];
    the image is read from [argv[4]], the device is named [argv[1]], the
    models are loaded from [argv[2]] and [argv[3]], and [main] depends on its
    argument vector through these four entries only. *)
Theorem fixed_output_paths (argc : Z) (argv : list string) (w : World) :
  let L := run_log argc argv w in
  Forall (fun c => fst c = "output_ocr.png") (imwrite_calls L)
  /\ Forall (fun p => p = "/deploee-tmp/profile.bin") (profiler_paths L)
  /\ Forall (fun p => p = argv_at argv 4) (imread_paths L)
  /\ (passes argc argv w = true ->
      device_names L = [argv_at argv 1]
      /\ model_paths L = [argv_at argv 2; argv_at argv 3]
      /\ profiler_paths L = ["/deploee-tmp/profile.bin"]
      /\ imread_paths L = [argv_at argv 4])
  /\ (forall (argv' : list string) (s : State),
        argv_at argv' 1 = argv_at argv 1 -> argv_at argv' 2 = argv_at argv 2 ->
        argv_at argv' 3 = argv_at argv 3 -> argv_at argv' 4 = argv_at argv 4 ->
        main argc argv' s = main argc argv s).
Proof.
  intros L.
  assert (Pass : passes argc argv w = true ->
                 device_names L = [argv_at argv 1]
                 /\ model_paths L = [argv_at argv 2; argv_at argv 3]
                 /\ profiler_paths L = ["/deploee-tmp/profile.bin"]
                 /\ imread_paths L = [argv_at argv 4]).
  { intros P. destruct (passed_objects argc argv w P) as [Co Im]. fold L in Co, Im.
    unfold device_names, model_paths, profiler_paths. rewrite Co, Im.
    repeat split; reflexivity. }
  assert (Dep : forall (argv' : list string) (s : State),
             argv_at argv' 1 = argv_at argv 1 -> argv_at argv' 2 = argv_at argv 2 ->
             argv_at argv' 3 = argv_at argv 3 -> argv_at argv' 4 = argv_at argv 4 ->
             main argc argv' s = main argc argv s).
  { intros argv' s E1 E2 E3 E4. unfold main. now rewrite E1, E2, E3, E4. }
  assert (Stop : passes argc argv w = false ->
                 imwrite_calls L = [] /\ profiler_paths L = []
                 /\ Forall (fun p => p = argv_at argv 4) (imread_paths L)).
  { intros P. unfold L. rewrite (run_log_stopped argc argv w P).
    unfold stopped_events, diagnostic. destruct (argc =? 5); repeat constructor. }
  split; [|split; [|split; [|split; [exact Pass|exact Dep]]]].
  - destruct (passes argc argv w) eqn:P.
    + destruct (passed_readings argc argv w P) as (_ & _ & Io & _).
      fold L in Io. rewrite Io. destruct (covered _ _); repeat constructor.
    + destruct (Stop eq_refl) as (-> & _). constructor.
  - destruct (passes argc argv w) eqn:P.
    + destruct (Pass eq_refl) as (_ & _ & -> & _). repeat constructor.
    + destruct (Stop eq_refl) as (_ & -> & _). constructor.
  - destruct (passes argc argv w) eqn:P.
    + destruct (Pass eq_refl) as (_ & _ & _ & ->). repeat constructor.
    + now destruct (Stop eq_refl) as (_ & _ & ?).
Qed.

(** C10. Every polygon drawn is that of a box of the final detection, each
    vertex having its [x] and [y] converted by [(int)]; for a coordinate
    whose integer part fits [int] that conversion is the truncation of its
    value toward zero, which is not rounding to the nearest integer: 2.75
    becomes 2 and -2.75 becomes -2. *)
Theorem vertices_truncated (argc : Z) (argv : list string) (w : World) :
  let L := run_log argc argv w in
  (forall img pts c k,
      In (img, pts, c, k) (polylines_calls L) ->
      exists b, In b (last_detection L)
                /\ pts = map (fun pt => {| px := to_int (x pt); py := to_int (y pt) |})
                           (bbox b))
  /\ (forall f t,
        float_integer_part f = Some t -> INT_MIN <= t <= INT_MAX ->
        to_int f = truncate_toward_zero (float_value f))
  /\ (to_int (S754_finite false 11 (-2)) = 2
       /\ round_to_nearest (float_value (S754_finite false 11 (-2))) = 3)
  /\ (to_int (S754_finite true 11 (-2)) = -2
       /\ round_to_nearest (float_value (S754_finite true 11 (-2))) = -3).
Proof.
  intros L. split; [|split; [|split]].
  - intros img pts c k H. destruct (passes argc argv w) eqn:P.
    + destruct (passed_readings argc argv w P) as (_ & Po & _).
      fold L in Po. rewrite Po in H.
      destruct (polygons_from_boxes _ _ _ _ _ _ H) as (b & I & E & _).
      exists b. split; [|exact E]. eapply firstn_within. exact I.
    + unfold L in H. rewrite (run_log_stopped argc argv w P) in H.
      unfold stopped_events, diagnostic in H. destruct (argc =? 5); contradiction.
  - intros f t E R. rewrite (to_int_in_range f t E R).
    now apply integer_part_truncates.
  - split; reflexivity.
  - split; reflexivity.
Qed.

(** ** Further properties of the runs *)

(** A reading that sees nothing in inference, report and write calls sees,
    in a run past the guards, the load and the setup only. *)
Lemma passed_flat_map {B} (f : Event -> list B) (argc : Z) (argv : list string) (w : World) :
  passes argc argv w = true ->
  (forall e, is_inference e = true -> f e = []) ->
  (forall e, is_report e = true -> f e = []) ->
  (forall p i, f (EImwrite p i) = []) ->
  flat_map f (run_log argc argv w)
    = flat_map f (EImread (argv_at argv 4) (cv_imread (argv_at argv 4) w)
                    :: setup_events argv).
Proof.
  intros P Hi Hr Hw.
  destruct (run_log_passed argc argv w P) as (warm & bxs & txs & R & L & _).
  rewrite L, app_comm_cons. unfold output_events. rewrite !flat_map_app.
  rewrite (rounds_unseen f _ _ _ _ _ Hi R), (report_unseen f _ _ _ _ Hr).
  replace (flat_map f (if covered bxs txs then _ else _)) with (@nil B)
    by (destruct (covered bxs txs); simpl; now rewrite ?Hw).
  replace (flat_map f (round_events _ _ _ bxs txs)) with (@nil B)
    by (unfold round_events; simpl; now rewrite !Hi by reflexivity).
  now rewrite !app_nil_r.
Qed.

Lemma Rounds_uses (d : TextDetector) (r : TextRecognizer) (img : Mat)
    (n : nat) (evs : list Event) :
  Rounds d r img n evs -> Forall (uses d r) evs.
Proof.
  induction 1 as [|n bxs txs rest _ IH]; [constructor|].
  simpl. repeat constructor. exact IH.
Qed.

(** X1. In a run past the guards every SDK object is built during the setup,
    before the first inference and never after; the detector and the
    recognizer that were built share one context, on device 0 of the name
    [argv[1]], to which the profiler was added before either was built; the
    detector loads [argv[2]], the recognizer [argv[3]], and every inference
    call of the run is made on these two objects. *)
Theorem sdk_setup_once_and_shared (argc : Z) (argv : list string) (w : World) :
  let L := run_log argc argv w in
  passes argc argv w = true ->
  (exists load setup rest,
      L = (load :: setup ++ rest)%list
      /\ is_setup load = false /\ is_inference load = false
      /\ filter is_setup setup = setup
      /\ filter is_setup rest = []
      /\ constructed L = constructed setup)
  /\ (forall d r,
        In (OTextDetector d) (constructed L) -> In (OTextRecognizer r) (constructed L) ->
        det_context d = reg_context r
        /\ ctx_added (det_context d) = [{| profiler_path := "/deploee-tmp/profile.bin" |}]
        /\ ctx_device (det_context d) = {| device_name := argv_at argv 1; device_id := 0 |}
        /\ model_path (det_model d) = argv_at argv 2
        /\ model_path (reg_model r) = argv_at argv 3
        /\ Forall (uses d r) L).
Proof.
  intros L P.
  destruct (run_log_passed argc argv w P) as (warm & bxs & txs & R & E & _).
  destruct (passed_objects argc argv w P) as [Co _]. fold L in E, Co.
  split.
  - exists (EImread (argv_at argv 4) (cv_imread (argv_at argv 4) w)), (setup_events argv),
      (warm ++ round_events (the_detector argv) (the_recognizer argv)
                 (cv_imread (argv_at argv 4) w) bxs txs
            ++ output_events (cv_imread (argv_at argv 4) w) bxs txs)%list.
    split; [exact E|]. split; [reflexivity|]. split; [reflexivity|].
    split; [reflexivity|]. split; [|rewrite Co; reflexivity].
    rewrite !filter_app.
    rewrite (filter_none _ warm)
      by (eapply Forall_impl; [|exact (Rounds_inference _ _ _ _ _ R)];
          now intros [[]| | | | | | |]).
    rewrite (filter_none _ (output_events _ bxs txs)); [reflexivity|].
    unfold output_events. apply Forall_app. split.
    + eapply Forall_impl; [|apply report_only_reports]. now intros [[]| | | | | | |].
    + destruct (covered bxs txs); repeat constructor.
  - intros d r Hd Hr. rewrite Co in Hd, Hr.
    assert (Ed : d = the_detector argv).
    { simpl in Hd. repeat (destruct Hd as [Hd|Hd]; [try discriminate|]);
        try contradiction. now inversion Hd. }
    assert (Er : r = the_recognizer argv).
    { simpl in Hr. repeat (destruct Hr as [Hr|Hr]; [try discriminate|]);
        try contradiction. now inversion Hr. }
    subst d r. repeat split.
    rewrite E, app_comm_cons. apply Forall_app. split; [repeat constructor|].
    apply Forall_app. split; [exact (Rounds_uses _ _ _ _ _ R)|].
    apply Forall_app. split; [repeat constructor|].
    unfold output_events. apply Forall_app. split.
    + eapply Forall_impl; [|apply report_only_reports]. now intros [[]| | | | | | |].
    + destruct (covered bxs txs); repeat constructor.
Qed.

(** X2. A run writes to stderr exactly when a guard stops it: a run past the
    guards makes no call on stderr, and a stopped run makes one call on
    stderr and none on stdout. *)
Theorem stderr_only_when_stopped (argc : Z) (argv : list string) (w : World) :
  let L := run_log argc argv w in
  (stderr_calls L = [] <-> passes argc argv w = true)
  /\ (passes argc argv w = false -> List.length (stderr_calls L) = 1%nat)
  /\ (passes argc argv w = false -> stdout_calls L = []).
Proof.
  intros L. destruct (passes argc argv w) eqn:P.
  - assert (S0 : stderr_calls L = []).
    { unfold L, stderr_calls. rewrite (passed_flat_map _ argc argv w P); try reflexivity;
        now intros [[]| | | | | | |]. }
    split; [split; [reflexivity|intros _; exact S0]|]. split; discriminate.
  - unfold L. rewrite (run_log_stopped argc argv w P). unfold stopped_events, diagnostic.
    destruct (argc =? 5); simpl; (split; [split; discriminate|]); split; reflexivity.
Qed.

(** X3. When the final detection of a run past the guards finds no box, the
    recognizer is still applied, to the empty span; whatever it returns,
    nothing is printed, nothing is drawn, the image is written to
    [output_ocr.png] as it was loaded, and the run returns 0. *)
Theorem no_box_writes_loaded_image (argc : Z) (argv : list string) (w : World) :
  let img := cv_imread (argv_at argv 4) w in
  let L := run_log argc argv w in
  passes argc argv w = true ->
  last_detection L = [] ->
  exit_status (main argc argv (init w)) = Some 0
  /\ stdout_calls L = []
  /\ polylines_calls L = []
  /\ imwrite_calls L = [("output_ocr.png", img)]
  /\ (exists before,
        L = (before
               ++ [ ERecognizerApply (the_recognizer argv) img (mkSpan [] 0)
                      (last_recognition L);
                    EImwrite "output_ocr.png" img ])%list).
Proof.
  intros img L P N.
  destruct (passed_readings argc argv w P) as (So & Po & Io & X & _).
  fold img L in So, Po, Io, X. rewrite N in So, Po, Io, X.
  destruct (run_log_passed argc argv w P) as (warm & bxs & txs & R & E & _ & Eb & Et).
  fold L in E, Eb, Et. fold img in E. rewrite N in Eb. subst bxs. subst txs.
  split; [exact X|]. split; [exact So|]. split.
  { rewrite Po. now destruct (List.length (last_recognition L)). }
  split; [exact Io|].
  exists (EImread (argv_at argv 4) img :: setup_events argv ++ warm
            ++ [EDetectorApply (the_detector argv) img []])%list.
  rewrite E at 1. unfold output_events, round_events, begin, size. simpl.
  rewrite <- !app_assoc. reflexivity.
Qed.

Lemma count_nl_app (a b : string) : count_nl (a ++ b) = (count_nl a + count_nl b)%nat.
Proof.
  induction a as [|c a IH]; simpl; [reflexivity|]. rewrite IH. apply Nat.add_assoc.
Qed.

Lemma count_nl_uint (d : Decimal.uint) : count_nl (NilEmpty.string_of_uint d) = 0%nat.
Proof. induction d; simpl; auto. Qed.

Lemma count_nl_dec (z : Z) : count_nl (dec z) = 0%nat.
Proof.
  unfold dec, NilZero.string_of_int, NilZero.string_of_uint.
  destruct (Z.to_int z) as [d|d]; destruct d; simpl; auto using count_nl_uint.
Qed.

Lemma digit_not_nl (z : Z) : 0 <= z < 10 -> Ascii.eqb (digit z) (ascii_of_nat 10) = false.
Proof.
  intros H.
  assert (C : z = 0 \/ z = 1 \/ z = 2 \/ z = 3 \/ z = 4 \/ z = 5 \/ z = 6
              \/ z = 7 \/ z = 8 \/ z = 9) by lia.
  repeat (destruct C as [-> | C]; [vm_compute; reflexivity|]). subst. vm_compute. reflexivity.
Qed.

Lemma count_nl_cons (c : ascii) (r : string) :
  count_nl (String c r)
    = ((if Ascii.eqb c (ascii_of_nat 10) then 1 else 0) + count_nl r)%nat.
Proof. reflexivity. Qed.

Lemma count_nl_sign (s : bool) : count_nl (sign_text s) = 0%nat.
Proof. destruct s; vm_compute; reflexivity. Qed.

Lemma count_nl_fixed2 (s : bool) (h : Z) : count_nl (fixed2 s h) = 0%nat.
Proof.
  unfold fixed2. rewrite !count_nl_app, count_nl_dec, count_nl_sign, !count_nl_cons.
  rewrite !digit_not_nl by (apply Z.mod_pos_bound; lia).
  vm_compute. reflexivity.
Qed.

(** [%.2f] writes no line feed, whatever the value. *)
Lemma count_nl_fmt_2f (f : float) : count_nl (fmt_2f f) = 0%nat.
Proof.
  destruct f as [s|s| |s m e]; unfold fmt_2f.
  - apply count_nl_fixed2.
  - rewrite count_nl_app, count_nl_sign. vm_compute. reflexivity.
  - vm_compute. reflexivity.
  - apply count_nl_fixed2.
Qed.

Lemma count_nl_vertices (pts : list mmdeploy_point_t) :
  count_nl (text_of (map vertex_text pts)) = 0%nat.
Proof.
  induction pts as [|pt pts IH]; [reflexivity|].
  rewrite map_cons, text_of_cons, count_nl_app, IH. unfold vertex_text.
  rewrite !count_nl_app, !count_nl_fmt_2f. vm_compute. reflexivity.
Qed.

Lemma count_nl_box_text (i : nat) (b : TextDetection) (t : TextRecognition) :
  count_nl (box_text i b t) = (2 + count_nl (text t))%nat.
Proof.
  unfold box_text.
  rewrite !count_nl_app, count_nl_dec, count_nl_vertices.
  replace (count_nl "box[") with 0%nat by (vm_compute; reflexivity).
  replace (count_nl "]: ") with 0%nat by (vm_compute; reflexivity).
  replace (count_nl nl) with 1%nat by (vm_compute; reflexivity).
  lia.
Qed.

Lemma count_nl_rows (rows : list (nat * TextDetection * TextRecognition)) :
  count_nl (text_of (map (fun c => box_text (fst (fst c)) (snd (fst c)) (snd c)) rows))
    = (2 * List.length rows
         + list_sum (map (fun t => count_nl (text t)) (map snd rows)))%nat.
Proof.
  induction rows as [|c rows IH]; [reflexivity|].
  rewrite !map_cons, text_of_cons, count_nl_app, count_nl_box_text, IH. simpl. lia.
Qed.

(** X4. In a run past the guards with a text for every box, stdout receives
    two line feeds per box besides those the recognized texts contain: one
    ends the [box[i]] line, one ends the line of the vertices, and neither
    [%d] nor [%.2f] writes any.  With texts free of line feeds the output is
    exactly two lines per box. *)
Theorem two_lines_per_box (argc : Z) (argv : list string) (w : World) :
  let L := run_log argc argv w in
  let bxs := last_detection L in
  let txs := last_recognition L in
  passes argc argv w = true ->
  covered bxs txs = true ->
  count_nl (stdout_text L)
    = (2 * List.length bxs
         + list_sum (map (fun t => count_nl (text t)) (firstn (List.length bxs) txs)))%nat
  /\ (Forall (fun t => count_nl (text t) = 0%nat) txs ->
      count_nl (stdout_text L) = (2 * List.length bxs)%nat).
Proof.
  intros L bxs txs P C.
  destruct (passed_readings argc argv w P) as (So & _). fold L bxs txs in So.
  destruct (numbered_indices bxs 0 txs) as (E1 & _ & E3).
  unfold covered in C. apply Nat.leb_le in C.
  assert (N : List.length (numbered 0 bxs txs) = List.length bxs).
  { rewrite <- (length_map (fun c => fst (fst c))), E1, length_seq. now apply Nat.min_l. }
  assert (T : count_nl (stdout_text L)
              = (2 * List.length bxs
                   + list_sum (map (fun t => count_nl (text t))
                                 (firstn (List.length bxs) txs)))%nat).
  { unfold stdout_text. rewrite So, stdout_text_boxes, count_nl_rows, N, E3. reflexivity. }
  split; [exact T|].
  intros F. rewrite T.
  assert (Z0 : forall l : list TextRecognition,
             Forall (fun t => count_nl (text t) = 0%nat) l ->
             list_sum (map (fun t => count_nl (text t)) l) = 0%nat).
  { induction 1 as [|t l Ht _ IH]; simpl; [reflexivity|]. now rewrite Ht, IH. }
  rewrite Z0; [lia|].
  apply Forall_forall. intros t Ht. apply (proj1 (Forall_forall _ _) F).
  eapply firstn_within. exact Ht.
Qed.

(** Truncation is less than one away from the number, on the side of zero. *)
Lemma truncate_within_one (q : Q) : toward_zero_within_one q (truncate_toward_zero q).
Proof.
  unfold toward_zero_within_one, truncate_toward_zero.
  destruct (Qle_bool 0 q) eqn:B.
  - apply Qle_bool_iff in B.
    assert (F0 : 0 <= Qfloor q) by (apply (Qfloor_resp_le 0 q B)).
    split.
    + intros _. split; [apply Qfloor_le|]. split; [|exact F0].
      change (q < inject_Z (Qfloor q) + inject_Z 1)%Q.
      rewrite <- inject_Z_plus. apply Qlt_floor.
    + intros N. assert (E : (q == 0)%Q) by (now apply Qle_antisym).
      rewrite (Qfloor_comp _ _ E). change (Qfloor 0) with 0.
      split; [|split; [|lia]].
      * rewrite E. reflexivity.
      * rewrite E. apply Qle_refl.
  - assert (N : (q < 0)%Q).
    { apply Qnot_le_lt. intros H. apply Qle_bool_iff in H. congruence. }
    assert (C0 : Qceiling q <= 0).
    { apply (Qceiling_resp_le q 0). now apply Qlt_le_weak. }
    split.
    + intros H. exfalso. apply (Qlt_irrefl 0). eapply Qle_lt_trans; eassumption.
    + intros _. split; [|split; [apply Qle_ceiling|exact C0]].
      change (inject_Z (Qceiling q) - 1)%Q with (inject_Z (Qceiling q) + inject_Z (-1))%Q.
      rewrite <- inject_Z_plus. apply Qceiling_lt.
Qed.

(** X5. Every polygon drawn has one point per vertex of a box of the final
    detection, in the order of the vertices, and each pixel coordinate of a
    vertex whose coordinate [(int)] is defined on lies less than one away
    from that coordinate, on the side of zero: the drawing never moves a
    vertex by a pixel or more, and never away from the origin. *)
Theorem drawn_points_within_one_pixel (argc : Z) (argv : list string) (w : World) :
  let L := run_log argc argv w in
  Forall
    (fun call =>
       exists b,
         In b (last_detection L)
         /\ List.length (snd (fst (fst call))) = List.length (bbox b)
         /\ (forall j pt p,
               nth_error (bbox b) j = Some pt ->
               nth_error (snd (fst (fst call))) j = Some p ->
               (castable (x pt) = true ->
                toward_zero_within_one (float_value (x pt)) (px p))
               /\ (castable (y pt) = true ->
                   toward_zero_within_one (float_value (y pt)) (py p))))
    (polylines_calls L).
Proof.
  intros L. apply Forall_forall. intros [[[img pts] c] k] H.
  assert (B : exists b, In b (last_detection L) /\ pts = box_points b).
  { destruct (passes argc argv w) eqn:P.
    - destruct (passed_readings argc argv w P) as (_ & Po & _).
      fold L in Po. rewrite Po in H.
      destruct (polygons_from_boxes _ _ _ _ _ _ H) as (b & I & E & _).
      exists b. split; [|exact E]. eapply firstn_within. exact I.
    - unfold L in H. rewrite (run_log_stopped argc argv w P) in H.
      unfold stopped_events, diagnostic in H. destruct (argc =? 5); contradiction. }
  destruct B as (b & I & ->). exists b. simpl.
  split; [exact I|]. split; [apply length_map|].
  intros j pt p Ept Ep. unfold box_points in Ep.
  rewrite nth_error_map, Ept in Ep. simpl in Ep. inversion Ep. subst p. simpl.
  assert (K : forall f, castable f = true ->
              toward_zero_within_one (float_value f) (to_int f)).
  { intros f Cf. unfold castable in Cf.
    destruct (float_integer_part f) as [t|] eqn:Ef; [|discriminate].
    apply andb_true_iff in Cf. destruct Cf as [Lo Hi].
    apply Z.leb_le in Lo, Hi.
    rewrite (to_int_in_range f t Ef (conj Lo Hi)).
    rewrite (integer_part_truncates f t Ef). apply truncate_within_one. }
  split; apply K.
Qed.

(** X6. A stopped run does not look at the arguments it has no use for: with
    a wrong argument count the argument vector is not read at all, and when
    the image has no data the run is the same whatever the device name and
    the model paths are. *)
Theorem stopped_run_ignores_arguments (argc : Z) (argv argv' : list string) (s : State) :
  (argc <> 5 -> main argc argv s = main argc argv' s)
  /\ (argc = 5 ->
      mat_data (cv_imread (argv_at argv 4) (world s)) = false ->
      argv_at argv' 4 = argv_at argv 4 ->
      main argc argv s = main argc argv' s).
Proof.
  split.
  - intros N. now rewrite !main_usage.
  - intros -> H E. rewrite (main_no_image argv s H).
    rewrite <- E in H. rewrite (main_no_image argv' s H), E. reflexivity.
Qed.

End Program.

Arguments Done {Ext A} _ _.
Arguments Fault {Ext A} _.

(** ** The theorems at the sample environments *)

Import Sample.

(** The sample run: twenty rounds that find one box, and a final round that
    finds two, of which only the latter reach the output. *)
Lemma warm_up_rounds_discarded_witness :
  exists warm bxs txs,
    run_log (Ext := env) tick 5 argv_ok start
      = ((EImread (Ext := env) "demo.png" blank :: setup_events argv_ok) ++ warm
           ++ round_events (the_detector argv_ok) (the_recognizer argv_ok) blank bxs txs
           ++ output_events (Ext := env) blank bxs txs)%list
    /\ Rounds (Ext := env) (the_detector argv_ok) (the_recognizer argv_ok) blank 20 warm
    /\ List.length (detections warm) = 20%nat
    /\ List.length (recognitions warm) = 20%nat
    /\ filter is_inference (EImread (Ext := env) "demo.png" blank :: setup_events argv_ok)
       = []
    /\ filter is_output
         ((EImread (Ext := env) "demo.png" blank :: setup_events argv_ok) ++ warm) = []
    /\ filter is_output (run_log (Ext := env) tick 5 argv_ok start)
       = output_events (Ext := env) blank bxs txs.
Proof.
  exact (warm_up_rounds_discarded (Ext := env) tick 5 argv_ok start eq_refl).
Defined.

Lemma single_final_inference_witness :
  List.length (detections (run_log (Ext := env) tick 5 argv_ok start)) = 21%nat
  /\ List.length (recognitions (run_log (Ext := env) tick 5 argv_ok start)) = 21%nat
  /\ last_detection (run_log (Ext := env) tick 5 argv_ok start) = [box_a; box_b]
  /\ polylines_calls (run_log (Ext := env) tick 5 argv_ok start)
     = polygons (Ext := env) blank [box_a; box_b].
Proof.
  destruct (single_final_inference (Ext := env) tick 5 argv_ok start eq_refl)
    as (_ & Nd & Nr & _ & _ & Po & _).
  split; [exact Nd|]. split; [exact Nr|]. split; [reflexivity|].
  etransitivity; [exact Po|]. reflexivity.
Defined.

Lemma polygons_then_one_write_witness :
  exit_status (main (Ext := env) tick 5 argv_ok (init start)) = Some 0
  /\ polylines_calls (run_log (Ext := env) tick 5 argv_ok start)
     = polygons (Ext := env) blank [box_a; box_b]
  /\ imwrite_calls (run_log (Ext := env) tick 5 argv_ok start)
     = [("output_ocr.png", annotate (Ext := env) blank [box_a; box_b])].
Proof.
  destruct (polygons_then_one_write (Ext := env) tick 5 argv_ok start eq_refl eq_refl)
    as (X & Po & _ & Io & _).
  split; [exact X|]. split; [exact Po|exact Io].
Defined.

Lemma guard_failure_only_diagnostic_witness :
  (exit_status (main (Ext := env) tick 2 argv_few (init start)) = Some 1
   /\ run_log (Ext := env) tick 2 argv_few start = [EFprintf stderr usage []])
  /\ (exit_status (main (Ext := env) tick 5 argv_missing (init start)) = Some 1
      /\ run_log (Ext := env) tick 5 argv_missing start
         = [EImread (Ext := env) "missing.png" no_image;
            EFprintf stderr load_failed_fmt [AStr "missing.png"]]).
Proof.
  split.
  - destruct (guard_failure_only_diagnostic (Ext := env) tick 2 argv_few start)
      as (X & L & _); [left; discriminate|].
    split; [exact X|exact L].
  - destruct (guard_failure_only_diagnostic (Ext := env) tick 5 argv_missing start)
      as (X & L & _); [right; reflexivity|].
    split; [exact X|exact L].
Defined.

Lemma stdout_box_lines_witness :
  stdout_text (run_log (Ext := env) tick 5 argv_ok start)
    = text_of [box_text 0 box_a (word "text"); box_text 1 box_b (word "text")].
Proof.
  destruct (stdout_box_lines (Ext := env) tick 5 argv_ok start eq_refl eq_refl)
    as (_ & T & _).
  etransitivity; [exact T|]. reflexivity.
Defined.

(** The recognizer that reads one word per box, and the one that reads the
    first box only. *)
Lemma text_index_in_bounds_witness :
  (is_fault (main (Ext := env) tick 5 argv_ok (init start)) = false
   /\ exit_status (main (Ext := env) tick 5 argv_ok (init start)) = Some 0)
  /\ is_fault (main (Ext := env_short) tick 5 argv_ok (init start_short)) = true.
Proof.
  split.
  - destruct (text_index_in_bounds (Ext := env) tick 5 argv_ok start eq_refl)
      as (F & _ & C).
    split; [apply F; vm_compute; lia|apply C; vm_compute; lia].
  - destruct (text_index_in_bounds (Ext := env_short) tick 5 argv_ok start_short eq_refl)
      as (F & _).
    apply not_false_is_true. intros Fr. apply F in Fr. vm_compute in Fr. lia.
Defined.

(** ** The further properties at the sample environments *)

Import SampleEdge.

(** All the inference calls of the sample run are made on the detector and
    the recognizer built from its arguments. *)
Lemma sdk_setup_once_and_shared_witness :
  det_context (the_detector argv_ok) = reg_context (the_recognizer argv_ok)
  /\ Forall (uses (Ext := env) (the_detector argv_ok) (the_recognizer argv_ok))
       (run_log (Ext := env) tick 5 argv_ok start).
Proof.
  destruct (sdk_setup_once_and_shared (Ext := env) tick 5 argv_ok start eq_refl)
    as (_ & H).
  destruct (H (the_detector argv_ok) (the_recognizer argv_ok)) as (C & _ & _ & _ & _ & U).
  - vm_compute. do 4 right. left. reflexivity.
  - vm_compute. do 6 right. left. reflexivity.
  - split; [exact C|exact U].
Defined.

(** The sample run whose final detection is empty: the recognizer reads the
    page, nothing is printed, and the image is written as loaded. *)
Lemma no_box_writes_loaded_image_witness :
  exit_status (main (Ext := env_none) tick 5 argv_ok (init start_none)) = Some 0
  /\ stdout_calls (run_log (Ext := env_none) tick 5 argv_ok start_none) = []
  /\ polylines_calls (run_log (Ext := env_none) tick 5 argv_ok start_none) = []
  /\ imwrite_calls (run_log (Ext := env_none) tick 5 argv_ok start_none)
     = [("output_ocr.png", blank_none)]
  /\ last_recognition (run_log (Ext := env_none) tick 5 argv_ok start_none)
     = [word "page"].
Proof.
  destruct (no_box_writes_loaded_image (Ext := env_none) tick 5 argv_ok start_none
              eq_refl eq_refl) as (X & So & Po & Io & _).
  split; [exact X|]. split; [exact So|]. split; [exact Po|]. split; [exact Io|].
  reflexivity.
Defined.

(** Two boxes, four lines. *)
Lemma two_lines_per_box_witness :
  count_nl (stdout_text (run_log (Ext := env) tick 5 argv_ok start)) = 4%nat.
Proof.
  destruct (two_lines_per_box (Ext := env) tick 5 argv_ok start eq_refl eq_refl)
    as (T & _).
  etransitivity; [exact T|]. reflexivity.
Defined.
